(** * Coverage path-planning engine of the wall-finishing robot service

    Shallow embedding of [app/services/path_planning.py] (the planners, the
    optimizer, the metrics calculator and the batching of the stored
    points), of [GeometryUtils] from [app/utils/geometry.py], of the field
    constraints of [TrajectoryPlanRequest] from
    [app/models/pydantic_models.py] and of the statistics of
    [app/api/routes/trajectories.py].

    Numbers.  Two models of Python's [float] are used.

    - The planners, the optimizer and the metrics are embedded over the real
      numbers of the Standard Library: [math.sqrt], [math.sin], [math.cos]
      and [math.pi] are [sqrt], [sin], [cos] and [PI].  This model computes
      without rounding, overflow or NaN.  It is used for properties that do
      not depend on rounding: which tests guard an appended point, which
      fields a point carries, how lists are built and traversed, and
      comparisons that the code itself makes.  It says nothing reliable
      about how many samples [np.arange] yields at a range's end, nor about
      whether a [while] loop that accumulates floats ends.
    - The two [while] loops whose termination depends on rounding, the
      spiral of [_plan_spiral] and [normalize_angle], are embedded a second
      time in [Binary64] over the IEEE 754 binary64 numbers of the kernel
      ([PrimFloat]), with [math.cos] and [math.sin] as parameters.

    Python [int]s are [Z], loop indices of [range] are [nat].

    Effects.  A planner either returns its list of points, raises, or (the
    spiral [while] loop) runs for ever; the three outcomes are the three
    constructors of [result], the last one observed through a fuel
    parameter. *)

From Stdlib Require Import Floats.
From Stdlib Require Import Reals Lra Lia List ZArith String Bool.
Import ListNotations.

Open Scope R_scope.

(** ** Outcomes of fallible code *)

Inductive exn : Type :=
| ZeroDivisionError
| ValueError (msg : string)
| ValidationError (fields : list string).

Inductive result (A : Type) : Type :=
| Ok (a : A)
| Raise (e : exn)
| OutOfFuel.

Arguments Ok {A} a.
Arguments Raise {A} e.
Arguments OutOfFuel {A}.

Definition bind {A B : Type} (m : result A) (k : A -> result B) : result B :=
  match m with
  | Ok a => k a
  | Raise e => Raise e
  | OutOfFuel => OutOfFuel
  end.

Notation "x <- m ;; k" := (bind m (fun x => k))
  (at level 61, m at next level, right associativity).

(** ** Comparisons and conversions of Python numbers *)

Definition Rleb (a b : R) : bool := if Rle_dec a b then true else false.
Definition Rltb (a b : R) : bool := if Rlt_dec a b then true else false.
Definition Rgtb (a b : R) : bool := Rltb b a.
Definition Rgeb (a b : R) : bool := Rleb b a.

(** [a / b] on floats raises when [b] is zero. *)
Definition truediv (a b : R) : result R :=
  if Req_dec_T b 0 then Raise ZeroDivisionError else Ok (a / b).

Definition floorZ (x : R) : Z := Int_part x.
Definition ceilZ (x : R) : Z := (- Int_part (- x))%Z.

(** [int(x)] truncates towards zero. *)
Definition int_of_float (x : R) : Z :=
  if Rle_dec 0 x then floorZ x else ceilZ x.

(** [range(n)] for an integer [n]; empty when [n <= 0]. *)
Definition range (n : Z) : list nat := seq 0 (Z.to_nat n).

(** [range(a, b)] for naturals. *)
Definition range_from (a b : nat) : list nat := seq a (b - a).

(** [np.arange(start, stop, step)], from its documentation: the values
    [start + i * step] for [0 <= i < ceil((stop - start) / step)]; the
    length computation divides by [step].  The quotient is exact here;
    numpy rounds it to binary64 before taking the ceiling, so that it can
    yield one sample more at the end of a range, and it raises on a length
    it cannot allocate.  The properties below use a range through tests made
    on each of its samples, through its emptiness when [stop <= start], and
    on inputs where the quotient is a whole number. *)
Definition np_arange (start stop step : R) : result (list R) :=
  q <- truediv (stop - start) step ;;
  Ok (map (fun i => start + INR i * step) (range (ceilZ q))).

(** ** Data model *)

Record PathPoint : Type := mkPathPoint {
  x : R;
  y : R;
  z : R;
  orientation : R;
  tool_active : bool;
  motion_type : string;
  feed_rate : R
}.

(** The dataclass defaults: [z = 0.0], [orientation = 0.0],
    [tool_active = True], [motion_type = "linear"], [feed_rate = 100.0]. *)
Definition default_z : R := 0.
Definition default_orientation : R := 0.
Definition default_tool_active : bool := true.
Definition default_motion_type : string := "linear".
Definition default_feed_rate : R := 100.

(** [PathPoint(x=.., y=.., orientation=..)] as the planners call it. *)
Definition PathPoint_xyo (px py o : R) : PathPoint :=
  mkPathPoint px py default_z o default_tool_active default_motion_type
    default_feed_rate.

(** [PathPoint(x=.., y=.., z=0.0, tool_active=False, motion_type="rapid")]. *)
Definition PathPoint_rapid (px py : R) : PathPoint :=
  mkPathPoint px py 0 default_orientation false "rapid" default_feed_rate.

(** The ['geometry'] dictionary of an obstacle; only the keys read by the
    planning service are kept. *)
Record Geometry : Type := mkGeometry {
  center_x : R;
  center_y : R;
  width : R;
  height : R
}.

(** An entry of [PlanningParameters.obstacles]: its ['type'] tag and its
    ['geometry']. *)
Record ObstacleData : Type := mkObstacleData {
  obs_type : string;
  geometry : Geometry
}.

Record PlanningParameters : Type := mkPlanningParameters {
  robot_width : R;
  overlap_percentage : R;
  resolution : R;
  wall_width : R;
  wall_height : R;
  obstacles : list ObstacleData
}.

Module PathPlanningService.

Definition RAPID_THRESHOLD : R := 5 / 100.
Definition AVG_FEED_RATE : R := 1 / 10.
Definition COLLINEAR_TOLERANCE : R := 1 / 1000.

(** *** Shared helpers *)

Definition _is_within_bounds (px py : R) (params : PlanningParameters) : bool :=
  (Rleb (robot_width params / 2) px
   && Rleb px (wall_width params - robot_width params / 2))
  && (Rleb (robot_width params / 2) py
      && Rleb py (wall_height params - robot_width params / 2)).

(** The test made on one obstacle inside [_is_point_free]; the four bounds
    are computed without rounding. *)
Definition obstacle_blocks (buffer px py : R) (obstacle : ObstacleData) : bool :=
  if String.eqb (obs_type obstacle) "rectangle" then
    let geom := geometry obstacle in
    (Rleb (center_x geom - width geom / 2 - buffer) px
     && Rleb px (center_x geom + width geom / 2 + buffer))
    && (Rleb (center_y geom - height geom / 2 - buffer) py
        && Rleb py (center_y geom + height geom / 2 + buffer))
  else false.

Definition _is_point_free (px py : R) (params : PlanningParameters) : bool :=
  let buffer := robot_width params / 2 in
  negb (existsb (obstacle_blocks buffer px py) (obstacles params)).

Definition _calculate_distance (x1 y1 x2 y2 z1 z2 : R) : R :=
  sqrt ((x2 - x1) ^ 2 + (y2 - y1) ^ 2 + (z2 - z1) ^ 2).

(** The call with [z1] and [z2] left at their default [0]. *)
Definition _calculate_distance_2d (x1 y1 x2 y2 : R) : R :=
  _calculate_distance x1 y1 x2 y2 0 0.

Definition effective_width (params : PlanningParameters) : R :=
  robot_width params * (1 - overlap_percentage params / 100).

(** *** Boustrophedon *)

(** The inner [for x in x_positions] loop of one row. *)
Definition boustrophedon_row (params : PlanningParameters) (direction : Z)
    (py : R) (x_positions : list R) (path_points : list PathPoint)
  : list PathPoint :=
  fold_left
    (fun acc px =>
       if _is_point_free px py params then
         acc ++ [PathPoint_xyo px py (if (direction =? 1)%Z then 0 else PI)]
       else acc)
    x_positions path_points.

(** The outer [for y in y_positions] loop, threading [direction] and
    [path_points]. *)
Fixpoint boustrophedon_rows (params : PlanningParameters) (y_positions : list R)
    (direction : Z) (path_points : list PathPoint) : result (list PathPoint) :=
  match y_positions with
  | [] => Ok path_points
  | py :: rest =>
      let x_start :=
        if (direction =? 1)%Z then robot_width params / 2
        else wall_width params - robot_width params / 2 in
      let x_end :=
        if (direction =? 1)%Z then wall_width params - robot_width params / 2
        else robot_width params / 2 in
      x_positions <- np_arange x_start x_end (resolution params * IZR direction) ;;
      boustrophedon_rows params rest (direction * -1)%Z
        (boustrophedon_row params direction py x_positions path_points)
  end.

Definition _plan_boustrophedon (params : PlanningParameters)
  : result (list PathPoint) :=
  y_positions <- np_arange (robot_width params / 2)
                   (wall_height params - robot_width params / 2)
                   (effective_width params) ;;
  boustrophedon_rows params y_positions 1%Z [].

(** *** Spiral *)

(** The [while radius < max_radius] loop; [fuel] bounds the number of
    iterations observed.  The angle and the radius accumulate without
    rounding; [Binary64.spiral_loop] is the same loop on binary64 numbers,
    where a small step can leave the angle unchanged. *)
Fixpoint spiral_loop (fuel : nat) (params : PlanningParameters)
    (max_radius radius angle : R) (path_points : list PathPoint)
  : result (list PathPoint) :=
  match fuel with
  | O => OutOfFuel
  | S fuel' =>
      if Rlt_dec radius max_radius then
        let angle_step := resolution params / Rmax radius (1 / 100) in
        let px := wall_width params / 2 + radius * cos angle in
        let py := wall_height params / 2 + radius * sin angle in
        let path_points' :=
          if _is_within_bounds px py params && _is_point_free px py params
          then path_points ++ [PathPoint_xyo px py (angle + PI / 2)]
          else path_points in
        let angle' := angle + angle_step in
        if Rge_dec angle' (2 * PI) then
          spiral_loop fuel' params max_radius
            (radius + effective_width params) 0 path_points'
        else
          spiral_loop fuel' params max_radius radius angle' path_points'
      else Ok path_points
  end.

Definition spiral_max_radius (params : PlanningParameters) : R :=
  Rmin (wall_width params) (wall_height params) / 2 - robot_width params / 2.

Definition _plan_spiral (fuel : nat) (params : PlanningParameters)
  : result (list PathPoint) :=
  spiral_loop fuel params (spiral_max_radius params)
    (robot_width params / 2) 0 [].

(** *** Zigzag *)

Definition diagonal_angle : R := PI / 4.

Definition zigzag_spacing (params : PlanningParameters) : R :=
  effective_width params / sin diagonal_angle.

(** The endpoints and the orientation of pass [i]. *)
Definition zigzag_pass_geometry (params : PlanningParameters) (spacing : R)
    (i : nat) : (R * R) * (R * R) * R :=
  let x_offset := INR i * spacing in
  if Nat.even i then
    let start_x := x_offset in
    let start_y := robot_width params / 2 in
    let end_x := Rmin (wall_width params - robot_width params / 2)
                      (x_offset + wall_height params) in
    let end_y := Rmin (wall_height params - robot_width params / 2)
                      (start_y + (end_x - start_x)) in
    ((start_x, start_y), (end_x, end_y), diagonal_angle)
  else
    let start_x := x_offset in
    let start_y := wall_height params - robot_width params / 2 in
    let end_x := Rmin (wall_width params - robot_width params / 2)
                      (x_offset + wall_height params) in
    let end_y := Rmax (robot_width params / 2)
                      (start_y - (end_x - start_x)) in
    ((start_x, start_y), (end_x, end_y), - diagonal_angle).

(** The inner [for j in range(num_points)] loop of one pass. *)
Definition zigzag_pass_points (params : PlanningParameters)
    (start_x start_y end_x end_y o : R) (num_points : Z)
    (path_points : list PathPoint) : list PathPoint :=
  fold_left
    (fun acc j =>
       let t := INR j / IZR (Z.max (num_points - 1) 1) in
       let px := start_x + t * (end_x - start_x) in
       let py := start_y + t * (end_y - start_y) in
       if _is_point_free px py params then acc ++ [PathPoint_xyo px py o]
       else acc)
    (range num_points) path_points.

(** The outer [for i in range(num_passes)] loop. *)
Fixpoint zigzag_passes (params : PlanningParameters) (spacing : R)
    (passes : list nat) (path_points : list PathPoint)
  : result (list PathPoint) :=
  match passes with
  | [] => Ok path_points
  | i :: rest =>
      let '((start_x, start_y), (end_x, end_y), o) :=
        zigzag_pass_geometry params spacing i in
      let distance := _calculate_distance_2d start_x start_y end_x end_y in
      q <- truediv distance (resolution params) ;;
      let num_points := Z.max 2 (int_of_float q) in
      zigzag_passes params spacing rest
        (zigzag_pass_points params start_x start_y end_x end_y o num_points
           path_points)
  end.

(** [num_passes] is taken from the exact quotient; the code truncates the
    binary64 quotient, which can be the next whole number. *)
Definition _plan_zigzag (params : PlanningParameters) : result (list PathPoint) :=
  let spacing := zigzag_spacing params in
  q <- truediv (wall_width params) spacing ;;
  let num_passes := (int_of_float q + 1)%Z in
  zigzag_passes params spacing (range num_passes) [].

(** *** Dispatch *)

Definition _execute_algorithm (fuel : nat) (algorithm : string)
    (params : PlanningParameters) : result (list PathPoint) :=
  if String.eqb algorithm "boustrophedon" then _plan_boustrophedon params
  else if String.eqb algorithm "spiral" then _plan_spiral fuel params
  else if String.eqb algorithm "zigzag" then _plan_zigzag params
  else Raise (ValueError ("Unknown algorithm: " ++ algorithm)).

(** *** Optimizer *)

(** Filler for list indexing; every index used below is in range. *)
Definition origin : PathPoint := PathPoint_xyo 0 0 0.

Definition _is_collinear (p1 p2 p3 : PathPoint) : bool :=
  let cross_product :=
    Rabs ((x p2 - x p1) * (y p3 - y p1) - (y p2 - y p1) * (x p3 - x p1)) in
  Rltb cross_product COLLINEAR_TOLERANCE.

(** One iteration of the loop of [_add_connecting_moves]. *)
Definition connecting_step (path_points optimized_points : list PathPoint)
    (i : nat) : list PathPoint :=
  let prev_point := nth (i - 1) path_points origin in
  let current_point := nth i path_points origin in
  let distance :=
    _calculate_distance_2d (x prev_point) (y prev_point)
      (x current_point) (y current_point) in
  (if Rgtb distance RAPID_THRESHOLD then
     optimized_points ++ [PathPoint_rapid (x current_point) (y current_point)]
   else optimized_points) ++ [current_point].

Definition _add_connecting_moves (path_points : list PathPoint)
  : list PathPoint :=
  if (List.length path_points <? 2)%nat then path_points
  else
    fold_left (connecting_step path_points)
      (range_from 1 (List.length path_points)) [nth 0 path_points origin].

(** One iteration of the pruning loop of [_optimize_path]. *)
Definition prune_step (path_points optimized : list PathPoint) (i : nat)
  : list PathPoint :=
  if negb (_is_collinear (nth (i - 1) path_points origin)
             (nth i path_points origin) (nth (i + 1) path_points origin))
  then optimized ++ [nth i path_points origin]
  else optimized.

Definition _optimize_path (path_points : list PathPoint)
    (params : PlanningParameters) : list PathPoint :=
  if (List.length path_points <? 2)%nat then path_points
  else
    let optimized :=
      fold_left (prune_step path_points)
        (range_from 1 (List.length path_points - 1)) [nth 0 path_points origin] in
    let optimized :=
      if (1 <? List.length path_points)%nat
      then optimized ++ [last path_points origin]
      else optimized in
    _add_connecting_moves optimized.

(** *** Metrics *)

Record Metrics : Type := mkMetrics {
  total_length : R;
  coverage_percentage : R;
  estimated_duration : R
}.

(** One iteration of the accumulation loop; the state is
    [(total_length, cutting_length)]. *)
Definition metrics_step (path_points : list PathPoint) (acc : R * R) (i : nat)
  : R * R :=
  let prev_point := nth (i - 1) path_points origin in
  let current_point := nth i path_points origin in
  let segment_length :=
    _calculate_distance (x prev_point) (y prev_point)
      (x current_point) (y current_point) (z prev_point) (z current_point) in
  let total := fst acc + segment_length in
  (total,
   if tool_active current_point then snd acc + segment_length else snd acc).

Definition metrics_loop (path_points : list PathPoint) : R * R :=
  fold_left (metrics_step path_points)
    (range_from 1 (List.length path_points)) (0, 0).

(** [sum(width * height for obs in obstacles if obs['type'] == 'rectangle')]. *)
Definition obstacle_area (params : PlanningParameters) : R :=
  fold_left Rplus
    (map (fun obs => width (geometry obs) * height (geometry obs))
       (filter (fun obs => String.eqb (obs_type obs) "rectangle")
          (obstacles params)))
    0.

Definition _calculate_path_metrics (path_points : list PathPoint)
    (params : PlanningParameters) : Metrics :=
  match path_points with
  | [] => mkMetrics 0 0 0
  | _ =>
      let cutting_length := snd (metrics_loop path_points) in
      let wall_area := wall_width params * wall_height params in
      let effective_area := wall_area - obstacle_area params in
      let covered_area := cutting_length * robot_width params in
      mkMetrics
        (fst (metrics_loop path_points))
        (if Rgtb effective_area 0
         then Rmin 100 (covered_area / effective_area * 100)
         else 0)
        (if Rgtb AVG_FEED_RATE 0 then cutting_length / AVG_FEED_RATE else 0)
  end.

End PathPlanningService.

(** ** Request model and orchestration *)

Inductive Algorithm : Type := BOUSTROPHEDON | SPIRAL | ZIGZAG.

Definition Algorithm_value (a : Algorithm) : string :=
  match a with
  | BOUSTROPHEDON => "boustrophedon"
  | SPIRAL => "spiral"
  | ZIGZAG => "zigzag"
  end.

Module TrajectoryPlanRequest.

Record t : Type := mk {
  wall_id : Z;
  algorithm : Algorithm;
  robot_width : R;
  overlap_percentage : R;
  resolution : R
}.

(** The [Field] constraints: [robot_width] has [gt=0, le=1],
    [overlap_percentage] has [ge=0, le=50], [resolution] has
    [gt=0, le=0.1].  Building the request raises when one of them fails. *)
Definition robot_width_ok (v : R) : bool := Rgtb v 0 && Rleb v 1.
Definition overlap_percentage_ok (v : R) : bool := Rgeb v 0 && Rleb v 50.
Definition resolution_ok (v : R) : bool := Rgtb v 0 && Rleb v (1 / 10).

(** The names of the fields whose constraint fails. *)
Definition failing_fields (req : t) : list string :=
  (if robot_width_ok (robot_width req) then [] else ["robot_width"%string])
  ++ (if overlap_percentage_ok (overlap_percentage req) then []
      else ["overlap_percentage"%string])
  ++ (if resolution_ok (resolution req) then [] else ["resolution"%string]).

Definition validate (req : t) : result t :=
  match failing_fields req with
  | [] => Ok req
  | fields => Raise (ValidationError fields)
  end.

End TrajectoryPlanRequest.

Module Wall.

Record t : Type := mk {
  id : Z;
  width : R;
  height : R;
  obstacles : list ObstacleData
}.

End Wall.

(** What [plan_trajectory] computes before it hands over to the database:
    the algorithm name, the optimized points and their metrics. *)
Record Planned : Type := mkPlanned {
  planned_algorithm : string;
  planned_points : list PathPoint;
  planned_metrics : PathPlanningService.Metrics
}.

Definition _prepare_planning_parameters (wall : Wall.t)
    (request : TrajectoryPlanRequest.t) : PlanningParameters :=
  mkPlanningParameters
    (TrajectoryPlanRequest.robot_width request)
    (TrajectoryPlanRequest.overlap_percentage request)
    (TrajectoryPlanRequest.resolution request)
    (Wall.width wall) (Wall.height wall) (Wall.obstacles wall).

Definition plan_trajectory (fuel : nat) (wall : Wall.t)
    (request : TrajectoryPlanRequest.t) : result Planned :=
  let algorithm := Algorithm_value (TrajectoryPlanRequest.algorithm request) in
  let params := _prepare_planning_parameters wall request in
  path_points <- PathPlanningService._execute_algorithm fuel algorithm params ;;
  let optimized_points := PathPlanningService._optimize_path path_points params in
  let metrics :=
    PathPlanningService._calculate_path_metrics optimized_points params in
  Ok (mkPlanned algorithm optimized_points metrics).

(** The [POST /planning/plan] route: the request body is validated when the
    request object is built, then the planning service runs. *)
Definition route_plan_trajectory (fuel : nat) (wall : Wall.t)
    (body : TrajectoryPlanRequest.t) : result Planned :=
  request <- TrajectoryPlanRequest.validate body ;;
  plan_trajectory fuel wall request.

(** ** Geometry utilities ([GeometryUtils]) *)

Module GeometryUtils.

Definition rectangle_bounds (center_x center_y width height : R)
  : R * R * R * R :=
  let min_x := center_x - width / 2 in
  let max_x := center_x + width / 2 in
  let min_y := center_y - height / 2 in
  let max_y := center_y + height / 2 in
  (min_x, min_y, max_x, max_y).

Definition point_in_rectangle (x y center_x center_y width height : R)
  : bool :=
  (Rleb (center_x - width / 2) x && Rleb x (center_x + width / 2))
  && (Rleb (center_y - height / 2) y && Rleb y (center_y + height / 2)).

(** The squares, their sum and the square root are exact. *)
Definition calculate_distance (x1 y1 x2 y2 : R) : R :=
  sqrt ((x2 - x1) ^ 2 + (y2 - y1) ^ 2).

(** [while angle > math.pi: angle -= 2 * math.pi], without rounding;
    [Binary64.normalize_down] is the same loop on binary64 numbers, where
    the subtraction leaves a large angle unchanged. *)
Fixpoint normalize_down (fuel : nat) (angle : R) : result R :=
  match fuel with
  | O => OutOfFuel
  | S fuel' =>
      if Rgt_dec angle PI then normalize_down fuel' (angle - 2 * PI)
      else Ok angle
  end.

(** [while angle < -math.pi: angle += 2 * math.pi], without rounding. *)
Fixpoint normalize_up (fuel : nat) (angle : R) : result R :=
  match fuel with
  | O => OutOfFuel
  | S fuel' =>
      if Rlt_dec angle (- PI) then normalize_up fuel' (angle + 2 * PI)
      else Ok angle
  end.

Definition normalize_angle (fuel : nat) (angle : R) : result R :=
  a <- normalize_down fuel angle ;;
  normalize_up fuel a.

End GeometryUtils.

(** ** Stored trajectory points *)

Module TrajectoryPoint.

(** A row of the [trajectory_points] table, as [_create_trajectory_record]
    fills it. *)
Record t : Type := mk {
  trajectory_id : Z;
  sequence_number : nat;
  x : R;
  y : R;
  z : R;
  orientation : R;
  tool_active : bool;
  motion_type : string;
  feed_rate : R;
  planned_time : R
}.

End TrajectoryPoint.

Module TrajectoryStorage.

Definition BATCH_SIZE : nat := 1000.

(** [enumerate(path_points)] *)
Definition enumerate {A : Type} (l : list A) : list (nat * A) :=
  combine (seq 0 (List.length l)) l.

(** The row built for the point of index [i]. *)
Definition row_of_point (trajectory_id : Z) (i : nat) (point : PathPoint)
  : TrajectoryPoint.t :=
  TrajectoryPoint.mk trajectory_id i (x point) (y point) (z point)
    (orientation point) (tool_active point) (motion_type point)
    (feed_rate point) (INR i * (1 / 10)).

(** One iteration of the batching loop of [_create_trajectory_record]; the
    state is the list of batches handed to [db.add_all] so far and the
    current [trajectory_points]. *)
Definition batch_step (trajectory_id : Z)
    (st : list (list TrajectoryPoint.t) * list TrajectoryPoint.t)
    (ip : nat * PathPoint)
  : list (list TrajectoryPoint.t) * list TrajectoryPoint.t :=
  let trajectory_points :=
    snd st ++ [row_of_point trajectory_id (fst ip) (snd ip)] in
  if (BATCH_SIZE <=? List.length trajectory_points)%nat
  then (fst st ++ [trajectory_points], [])
  else (fst st, trajectory_points).

(** The batches handed to [db.add_all], in order, by the loop and by the
    final [if trajectory_points:]. *)
Definition add_all_batches (trajectory_id : Z) (path_points : list PathPoint)
  : list (list TrajectoryPoint.t) :=
  let st :=
    fold_left (batch_step trajectory_id) (enumerate path_points) ([], []) in
  match snd st with
  | [] => fst st
  | _ :: _ => fst st ++ [snd st]
  end.

End TrajectoryStorage.

(** ** Trajectory statistics ([api/routes/trajectories.py]) *)

Module TrajectoriesRoutes.

Record Stats : Type := mkStats {
  total_points : nat;
  cutting_points : nat;
  rapid_points : nat;
  total_length : R;
  cutting_length : R;
  rapid_length : R
}.

Definition origin_row : TrajectoryPoint.t :=
  TrajectoryPoint.mk 0 0 0 0 0 0 true "linear" 100 0.

(** One iteration of the length loop of [get_trajectory_stats]; the state is
    [(total_length, cutting_length, rapid_length)].  The power [** 0.5] is
    the square root, and the three sums accumulate without rounding. *)
Definition stats_step (points_list : list TrajectoryPoint.t)
    (acc : R * R * R) (i : nat) : R * R * R :=
  let '(total, cutting, rapid) := acc in
  let prev := nth (i - 1) points_list origin_row in
  let curr := nth i points_list origin_row in
  let distance :=
    sqrt ((TrajectoryPoint.x curr - TrajectoryPoint.x prev) ^ 2
          + (TrajectoryPoint.y curr - TrajectoryPoint.y prev) ^ 2
          + (TrajectoryPoint.z curr - TrajectoryPoint.z prev) ^ 2) in
  if TrajectoryPoint.tool_active curr
  then (total + distance, cutting + distance, rapid)
  else (total + distance, cutting, rapid + distance).

(** The statistics [get_trajectory_stats] computes from the points of a
    trajectory, given in the order of their sequence numbers. *)
Definition get_trajectory_stats (points_list : list TrajectoryPoint.t)
  : Stats :=
  let total_points := List.length points_list in
  let cutting_points :=
    List.length (filter TrajectoryPoint.tool_active points_list) in
  let rapid_points := (total_points - cutting_points)%nat in
  let '(total, cutting, rapid) :=
    fold_left (stats_step points_list)
      (range_from 1 (List.length points_list)) (0, 0, 0) in
  mkStats total_points cutting_points rapid_points total cutting rapid.

End TrajectoriesRoutes.

(** * The two [while] loops over binary64 numbers *)

(** The spiral of [_plan_spiral] and the loops of [normalize_angle] once more,
    with Python's [float] as the binary64 numbers of the kernel: [+], [-],
    [*], [/] and the comparisons are the IEEE 754 operations, rounded to
    nearest with ties to even.  An [int] operand ([0], [2], [100]) is the
    binary64 number of that value. *)

Module Binary64.

Local Open Scope float_scope.

(** [math.pi], the binary64 number nearest to the circle constant. *)
Definition pi : float := 0x1.921fb54442d18p+1.

(** [a / b] raises when [b] compares equal to zero. *)
Definition truediv (a b : float) : result float :=
  if b =? 0 then Raise ZeroDivisionError else Ok (a / b).

(** [max(a, b)] and [min(a, b)] of the interpreter: the first argument is
    kept unless the second compares greater, resp. smaller. *)
Definition max (a b : float) : float := if a <? b then b else a.
Definition min (a b : float) : float := if b <? a then b else a.

Record PathPoint : Type := mkPathPoint {
  x : float;
  y : float;
  z : float;
  orientation : float;
  tool_active : bool;
  motion_type : string;
  feed_rate : float
}.

(** [PathPoint(x=.., y=.., orientation=..)], the other fields at their
    defaults. *)
Definition PathPoint_xyo (px py o : float) : PathPoint :=
  mkPathPoint px py 0 o true "linear" 100.

Record Geometry : Type := mkGeometry {
  center_x : float;
  center_y : float;
  width : float;
  height : float
}.

Record ObstacleData : Type := mkObstacleData {
  obs_type : string;
  geometry : Geometry
}.

Record PlanningParameters : Type := mkPlanningParameters {
  robot_width : float;
  overlap_percentage : float;
  resolution : float;
  wall_width : float;
  wall_height : float;
  obstacles : list ObstacleData
}.

Definition _is_within_bounds (px py : float) (params : PlanningParameters)
  : bool :=
  ((robot_width params / 2 <=? px)
   && (px <=? wall_width params - robot_width params / 2))
  && ((robot_width params / 2 <=? py)
      && (py <=? wall_height params - robot_width params / 2)).

Definition obstacle_blocks (buffer px py : float) (obstacle : ObstacleData)
  : bool :=
  if String.eqb (obs_type obstacle) "rectangle" then
    let geom := geometry obstacle in
    ((center_x geom - width geom / 2 - buffer <=? px)
     && (px <=? center_x geom + width geom / 2 + buffer))
    && ((center_y geom - height geom / 2 - buffer <=? py)
        && (py <=? center_y geom + height geom / 2 + buffer))
  else false.

Definition _is_point_free (px py : float) (params : PlanningParameters)
  : bool :=
  let buffer := robot_width params / 2 in
  negb (existsb (obstacle_blocks buffer px py) (obstacles params)).

Definition effective_width (params : PlanningParameters) : float :=
  robot_width params * (1 - overlap_percentage params / 100).

Definition spiral_max_radius (params : PlanningParameters) : float :=
  min (wall_width params) (wall_height params) / 2 - robot_width params / 2.

Section Spiral.

(** [math.cos] and [math.sin] are the C library's functions; no property of
    them is used. *)
Variables cos sin : float -> float.

(** The [while radius < max_radius] loop; the literal [0.01] is the binary64
    number [0x1.47ae147ae147bp-7]. *)
Fixpoint spiral_loop (fuel : nat) (params : PlanningParameters)
    (max_radius radius angle : float) (path_points : list PathPoint)
  : result (list PathPoint) :=
  match fuel with
  | O => OutOfFuel
  | S fuel' =>
      if radius <? max_radius then
        angle_step <- truediv (resolution params)
                        (max radius 0x1.47ae147ae147bp-7) ;;
        let px := wall_width params / 2 + radius * cos angle in
        let py := wall_height params / 2 + radius * sin angle in
        let path_points' :=
          if _is_within_bounds px py params && _is_point_free px py params
          then path_points ++ [PathPoint_xyo px py (angle + pi / 2)]
          else path_points in
        let angle' := angle + angle_step in
        if 2 * pi <=? angle' then
          spiral_loop fuel' params max_radius
            (radius + effective_width params) 0 path_points'
        else
          spiral_loop fuel' params max_radius radius angle' path_points'
      else Ok path_points
  end.

Definition _plan_spiral (fuel : nat) (params : PlanningParameters)
  : result (list PathPoint) :=
  spiral_loop fuel params (spiral_max_radius params)
    (robot_width params / 2) 0 [].

End Spiral.

(** [while angle > math.pi: angle -= 2 * math.pi] *)
Fixpoint normalize_down (fuel : nat) (angle : float) : result float :=
  match fuel with
  | O => OutOfFuel
  | S fuel' =>
      if pi <? angle then normalize_down fuel' (angle - 2 * pi) else Ok angle
  end.

(** [while angle < -math.pi: angle += 2 * math.pi] *)
Fixpoint normalize_up (fuel : nat) (angle : float) : result float :=
  match fuel with
  | O => OutOfFuel
  | S fuel' =>
      if angle <? - pi then normalize_up fuel' (angle + 2 * pi) else Ok angle
  end.

Definition normalize_angle (fuel : nat) (angle : float) : result float :=
  a <- normalize_down fuel angle ;;
  normalize_up fuel a.

(** A request the API accepts: robot width 1, overlap 20 %, resolution
    [5e-324] (the smallest positive binary64 number), on a 5 x 5 wall. *)
Definition smallest_resolution : PlanningParameters :=
  mkPlanningParameters 1 20 0x1p-1074 5 5 [].

(** The 0.3 x 0.3 wall with robot width 0.1, no overlap and resolution 0.1;
    the three literals are the binary64 numbers nearest to 0.1 and 0.3. *)
Definition wall_03 : PlanningParameters :=
  mkPlanningParameters 0x1.999999999999ap-4 0 0x1.999999999999ap-4
    0x1.3333333333333p-2 0x1.3333333333333p-2 [].

End Binary64.

(** * Vocabulary of the properties *)

Import PathPlanningService.
Import GeometryUtils.

(** ** Predicates on points *)

(** The wall shrunk inwards by half the robot width. *)
Definition within_bounds (params : PlanningParameters) (p : PathPoint) : Prop :=
  robot_width params / 2 <= x p <= wall_width params - robot_width params / 2
  /\ robot_width params / 2 <= y p <= wall_height params - robot_width params / 2.

(** The fields a planner leaves at their dataclass defaults. *)
Definition planner_defaults (p : PathPoint) : Prop :=
  z p = 0 /\ tool_active p = true /\ motion_type p = "linear"%string
  /\ feed_rate p = 100.



(** ** Parts of the planner loops *)

(** The x range of a row, as [_plan_boustrophedon] passes it to
    [np.arange]. *)
Definition row_x_positions (params : PlanningParameters) (d : Z)
  : result (list R) :=
  np_arange
    (if (d =? 1)%Z then robot_width params / 2
     else wall_width params - robot_width params / 2)
    (if (d =? 1)%Z then wall_width params - robot_width params / 2
     else robot_width params / 2)
    (resolution params * IZR d).

(** The candidate visited by the spiral at [(radius, angle)], appended when
    it is in bounds and free. *)
Definition spiral_visit (params : PlanningParameters) (radius angle : R)
    (acc : list PathPoint) : list PathPoint :=
  let px := wall_width params / 2 + radius * cos angle in
  let py := wall_height params / 2 + radius * sin angle in
  if _is_within_bounds px py params && _is_point_free px py params
  then acc ++ [PathPoint_xyo px py (angle + PI / 2)]
  else acc.

(** The angular step of the spiral at [radius]. *)
Definition spiral_angle_step (params : PlanningParameters) (radius : R) : R :=
  resolution params / Rmax radius (1 / 100).


(** ** Sums over consecutive points *)

Fixpoint consecutive_pairs {A : Type} (l : list A) : list (A * A) :=
  match l with
  | a :: (b :: _) as tl => (a, b) :: consecutive_pairs tl
  | _ => []
  end.

Definition Rsum (l : list R) : R := fold_right Rplus 0 l.

(** The 3D Euclidean distance between two points. *)
Definition distance_3d (p q : PathPoint) : R :=
  sqrt ((x q - x p) ^ 2 + (y q - y p) ^ 2 + (z q - z p) ^ 2).

(** The 2D distance between two points. *)
Definition distance_2d (p q : PathPoint) : R :=
  sqrt ((x q - x p) ^ 2 + (y q - y p) ^ 2).

(** The sum of the distances of all consecutive pairs. *)
Definition sum_of_segments (l : list PathPoint) : R :=
  Rsum (map (fun pq => distance_3d (fst pq) (snd pq)) (consecutive_pairs l)).

(** The sum of the distances of the consecutive pairs whose destination is
    active. *)
Definition sum_of_active_segments (l : list PathPoint) : R :=
  Rsum (map (fun pq => distance_3d (fst pq) (snd pq))
          (filter (fun pq => tool_active (snd pq)) (consecutive_pairs l))).

(** The loop body of the metrics calculator, on a pair of points. *)
Definition accumulate_segment (acc : R * R) (pq : PathPoint * PathPoint)
  : R * R :=
  (fst acc + distance_3d (fst pq) (snd pq),
   if tool_active (snd pq) then snd acc + distance_3d (fst pq) (snd pq)
   else snd acc).

(** ** Rapid markers, as the specification words them *)

(** The marker inserted before [next] when the gap from [prev] exceeds the
    rapid threshold, followed by [next] itself. *)
Definition with_rapid_marker (pq : PathPoint * PathPoint) : list PathPoint :=
  (if Rgtb (distance_2d (fst pq) (snd pq)) RAPID_THRESHOLD
   then [PathPoint_rapid (x (snd pq)) (y (snd pq))]
   else [])
  ++ [snd pq].

(** The points after [prev], each preceded by one rapid marker when it is
    more than the rapid threshold away from its predecessor. *)
Fixpoint insert_rapid_moves_after (prev : PathPoint) (rest : list PathPoint)
  : list PathPoint :=
  match rest with
  | [] => []
  | next :: tl =>
      with_rapid_marker (prev, next) ++ insert_rapid_moves_after next tl
  end.

(** The sequence with one rapid marker before every point that is more than
    the rapid threshold away from its predecessor, and nothing else
    changed. *)
Definition insert_rapid_moves (l : list PathPoint) : list PathPoint :=
  match l with
  | [] => []
  | first :: rest => first :: insert_rapid_moves_after first rest
  end.

(** A rapid marker, as the optimizer inserts them. *)
Definition rapid_marker (p : PathPoint) : Prop :=
  z p = 0 /\ tool_active p = false /\ motion_type p = "rapid"%string
  /\ feed_rate p = 100.

(** ** Obstacles *)

(** A position the free-space test accepts. *)
Definition point_free (params : PlanningParameters) (p : PathPoint) : Prop :=
  _is_point_free (x p) (y p) params = true.

Definition is_rectangle (obstacle : ObstacleData) : bool :=
  String.eqb (obs_type obstacle) "rectangle".

(** The same parameters with another list of obstacles. *)
Definition with_obstacles (params : PlanningParameters)
    (obs : list ObstacleData) : PlanningParameters :=
  mkPlanningParameters (robot_width params) (overlap_percentage params)
    (resolution params) (wall_width params) (wall_height params) obs.

(** ** Flat paths *)

(** A point at [z = 0], as the planners and the optimizer produce them. *)
Definition flat (p : PathPoint) : Prop := z p = 0.

(** A consecutive pair at most the rapid threshold apart. *)
Definition short_move (pq : PathPoint * PathPoint) : bool :=
  negb (Rgtb (distance_2d (fst pq) (snd pq)) RAPID_THRESHOLD).

(** The sum of the 2D distances of the consecutive pairs that are at most
    the rapid threshold apart. *)
Definition sum_of_short_moves (l : list PathPoint) : R :=
  Rsum (map (fun pq => distance_2d (fst pq) (snd pq))
          (filter short_move (consecutive_pairs l))).

(** ** Shapes *)

(** A position inside a bounding box [(min_x, min_y, max_x, max_y)]. *)
Definition in_box (box : R * R * R * R) (px py : R) : Prop :=
  let '(min_x, min_y, max_x, max_y) := box in
  min_x <= px <= max_x /\ min_y <= py <= max_y.

(** ** Stored rows *)

(** The rows of the points of a trajectory, in the order of the points. *)
Definition stored_rows (trajectory_id : Z) (path_points : list PathPoint)
  : list TrajectoryPoint.t :=
  map (fun ip => TrajectoryStorage.row_of_point trajectory_id (fst ip) (snd ip))
    (TrajectoryStorage.enumerate path_points).

(** The batching loop on rows already built. *)
Definition chunk_step
    (st : list (list TrajectoryPoint.t) * list TrajectoryPoint.t)
    (row : TrajectoryPoint.t)
  : list (list TrajectoryPoint.t) * list TrajectoryPoint.t :=
  let trajectory_points := snd st ++ [row] in
  if (TrajectoryStorage.BATCH_SIZE <=? List.length trajectory_points)%nat
  then (fst st ++ [trajectory_points], [])
  else (fst st, trajectory_points).

(** The 3D distance between two stored rows. *)
Definition row_distance (p q : TrajectoryPoint.t) : R :=
  sqrt ((TrajectoryPoint.x q - TrajectoryPoint.x p) ^ 2
        + (TrajectoryPoint.y q - TrajectoryPoint.y p) ^ 2
        + (TrajectoryPoint.z q - TrajectoryPoint.z p) ^ 2).

(** The loop body of the statistics, on a pair of rows. *)
Definition accumulate_rows (acc : R * R * R)
    (pq : TrajectoryPoint.t * TrajectoryPoint.t) : R * R * R :=
  let '(total, cutting, rapid) := acc in
  if TrajectoryPoint.tool_active (snd pq)
  then (total + row_distance (fst pq) (snd pq),
        cutting + row_distance (fst pq) (snd pq), rapid)
  else (total + row_distance (fst pq) (snd pq), cutting,
        rapid + row_distance (fst pq) (snd pq)).

(** ** The spiral on binary64 numbers *)

(** The candidate visited at [(radius, angle)], appended when it is in
    bounds and free. *)
Definition spiral_visit_binary64 (cos sin : float -> float)
    (params : Binary64.PlanningParameters) (radius angle : float)
    (acc : list Binary64.PathPoint) : list Binary64.PathPoint :=
  let px := (Binary64.wall_width params / 2 + radius * cos angle)%float in
  let py := (Binary64.wall_height params / 2 + radius * sin angle)%float in
  if Binary64._is_within_bounds px py params
     && Binary64._is_point_free px py params
  then acc ++ [Binary64.PathPoint_xyo px py (angle + Binary64.pi / 2)%float]
  else acc.


(** Twice the smallest positive binary64 number, as a mantissa and an
    exponent: the angular step [5e-324 / 0.5]. *)
Definition two_units : spec_float := S754_finite false 2 (-1074).

(** The binary64 numbers the angle takes when it starts from zero and grows
    by [two_units]: zero, the multiples of [2 ^ -1074] below [2 ^ -1021]
    (exponent -1074), those of [2 ^ -1073] below [2 ^ -1020], and
    [2 ^ -1020] itself, where the angle stays. *)
Definition below_turn (a : spec_float) : Prop :=
  a = S754_zero false
  \/ (exists m, a = S754_finite false m (-1074) /\ (Z.pos m < 2 ^ 53)%Z)
  \/ (exists m, a = S754_finite false m (-1073)
                /\ (2 ^ 52 <= Z.pos m < 2 ^ 53)%Z)
  \/ a = S754_finite false 4503599627370496 (-1072).

(** ** Concrete inputs *)

(** A 5 x 5 wall without obstacles, robot width 0.1, overlap 20 %,
    resolution 0.05. *)
Definition wall_5x5 : PlanningParameters :=
  mkPlanningParameters (1 / 10) 20 (5 / 100) 5 5 [].

(** A 0.05 x 0.05 wall without obstacles, robot width 0.1, overlap 20 %,
    resolution 0.01: the robot is wider than the wall. *)
Definition wall_too_small : PlanningParameters :=
  mkPlanningParameters (1 / 10) 20 (1 / 100) (5 / 100) (5 / 100) [].

(** A 0.3 x 0.3 wall without obstacles, robot width 0.1, no overlap, and a
    resolution left free. *)
Definition wall_03 (res : R) : PlanningParameters :=
  mkPlanningParameters (1 / 10) 0 res (3 / 10) (3 / 10) [].

(** A 3 x 3 wall without obstacles, robot width 1, no overlap,
    resolution 1. *)
Definition wall_3x3 : PlanningParameters :=
  mkPlanningParameters 1 0 1 3 3 [].

(** A 5 x 5 wall covered by a 10 x 10 rectangle obstacle: the effective area
    is negative. *)
Definition wall_covered : PlanningParameters :=
  mkPlanningParameters (1 / 10) 20 (5 / 100) 5 5
    [mkObstacleData "rectangle" (mkGeometry (5 / 2) (5 / 2) 10 10)].

(** The 0.3 x 0.3 wall with resolution 0.4 and a 0.01 x 0.01 rectangle
    obstacle in its lower left corner. *)
Definition corner_obstacle : ObstacleData :=
  mkObstacleData "rectangle"
    (mkGeometry (5 / 100) (5 / 100) (1 / 100) (1 / 100)).

Definition wall_03_obstacle : PlanningParameters :=
  with_obstacles (wall_03 (4 / 10)) [corner_obstacle].

(** ** Proof steps *)

(** Equality of two lists of reals, element by element. *)
Ltac R_list_eq :=
  simpl; repeat (apply (f_equal2 cons); [lra|]); reflexivity.

(** * Properties *)

(** ** Number and list helpers *)

Lemma Rleb_true (a b : R) : Rleb a b = true <-> a <= b.
Proof. unfold Rleb. destruct (Rle_dec a b); split; intros; congruence || lra. Qed.

Lemma Rleb_false (a b : R) : Rleb a b = false <-> b < a.
Proof. unfold Rleb. destruct (Rle_dec a b); split; intros; congruence || lra. Qed.

Lemma Rltb_true (a b : R) : Rltb a b = true <-> a < b.
Proof. unfold Rltb. destruct (Rlt_dec a b); split; intros; congruence || lra. Qed.

Lemma Rltb_false (a b : R) : Rltb a b = false <-> b <= a.
Proof. unfold Rltb. destruct (Rlt_dec a b); split; intros; congruence || lra. Qed.

Lemma truediv_ok (a b : R) : b <> 0 -> truediv a b = Ok (a / b).
Proof. intros H. unfold truediv. destruct (Req_dec_T b 0); congruence. Qed.

Lemma truediv_zero (a : R) : truediv a 0 = Raise ZeroDivisionError.
Proof. unfold truediv. destruct (Req_dec_T 0 0); congruence. Qed.

Lemma floorZ_spec (r : R) : IZR (floorZ r) <= r < IZR (floorZ r) + 1.
Proof. unfold floorZ. destruct (base_Int_part r). lra. Qed.

Lemma floorZ_nonneg (r : R) : 0 <= r -> (0 <= floorZ r)%Z.
Proof.
  intros H. destruct (floorZ_spec r) as [_ Hu].
  assert (IZR (-1) < IZR (floorZ r)) by (simpl; lra).
  apply lt_IZR in H0. lia.
Qed.

Lemma ceilZ_spec (r : R) : IZR (ceilZ r) - 1 < r <= IZR (ceilZ r).
Proof.
  unfold ceilZ. rewrite opp_IZR.
  destruct (floorZ_spec (- r)). unfold floorZ in *. lra.
Qed.

Lemma ceilZ_nonpos (r : R) : r <= 0 -> (ceilZ r <= 0)%Z.
Proof.
  intros H. destruct (ceilZ_spec r) as [Hl _].
  assert (IZR (ceilZ r) < IZR 1) by (simpl; lra).
  apply lt_IZR in H0. lia.
Qed.

Lemma int_of_float_nonneg (r : R) : 0 <= r -> (0 <= int_of_float r)%Z.
Proof.
  intros H. unfold int_of_float. destruct (Rle_dec 0 r); [|lra].
  now apply floorZ_nonneg.
Qed.

Lemma In_range (n : Z) (i : nat) : In i (range n) -> (Z.of_nat i < n)%Z.
Proof. unfold range. rewrite in_seq. lia. Qed.

(** A loop that only appends to its accumulator is a [flat_map]. *)
Lemma fold_left_emit {A B : Type} (step : list B -> A -> list B)
    (emit : A -> list B) :
  (forall acc a, step acc a = acc ++ emit a) ->
  forall l init, fold_left step l init = init ++ flat_map emit l.
Proof.
  intros Hstep l. induction l as [|a l IH]; intros init; simpl.
  - now rewrite app_nil_r.
  - rewrite IH, Hstep, <- app_assoc. reflexivity.
Qed.

Lemma fold_left_map_arg {A B C : Type} (f : C -> B -> C) (g : A -> B)
    (l : list A) (init : C) :
  fold_left (fun acc a => f acc (g a)) l init = fold_left f (map g l) init.
Proof. revert init. induction l; simpl; auto. Qed.

Lemma Forall_flat_map_intro {A B : Type} (P : B -> Prop) (f : A -> list B)
    (l : list A) :
  (forall a, In a l -> Forall P (f a)) -> Forall P (flat_map f l).
Proof.
  intros H. induction l as [|a l IH]; simpl; [constructor|].
  apply Forall_app. split; [apply H; now left|].
  apply IH. intros b Hb. apply H. now right.
Qed.

Lemma np_arange_empty (start stop step : R) :
  0 < step -> stop <= start -> np_arange start stop step = Ok [].
Proof.
  intros Hs Hle. unfold np_arange. rewrite truediv_ok by lra. simpl.
  assert (Hq : (stop - start) / step <= 0).
  { unfold Rdiv. assert (0 < / step) by now apply Rinv_0_lt_compat. nra. }
  apply ceilZ_nonpos in Hq. unfold range.
  replace (Z.to_nat _) with 0%nat by lia. reflexivity.
Qed.

(** ** The planners as emitters of points *)

Lemma boustrophedon_row_emit params d py xs acc :
  boustrophedon_row params d py xs acc =
  acc ++ flat_map
           (fun px =>
              if _is_point_free px py params
              then [PathPoint_xyo px py (if (d =? 1)%Z then 0 else PI)]
              else [])
           xs.
Proof.
  unfold boustrophedon_row. apply fold_left_emit. intros acc' px.
  destruct (_is_point_free px py params); [reflexivity|].
  now rewrite app_nil_r.
Qed.

Lemma zigzag_pass_points_emit params sx sy ex ey o n acc :
  zigzag_pass_points params sx sy ex ey o n acc =
  acc ++ flat_map
           (fun j =>
              let t := INR j / IZR (Z.max (n - 1) 1) in
              if _is_point_free (sx + t * (ex - sx)) (sy + t * (ey - sy)) params
              then [PathPoint_xyo (sx + t * (ex - sx)) (sy + t * (ey - sy)) o]
              else [])
           (range n).
Proof.
  unfold zigzag_pass_points. apply fold_left_emit. intros acc' j. simpl.
  destruct (_is_point_free _ _ params); [reflexivity|].
  now rewrite app_nil_r.
Qed.

Section PlannerInvariants.

Variable P : PathPoint -> Prop.
Variable params : PlanningParameters.

(** A property of every sample of every row holds of every point of the
    boustrophedon output. *)
Lemma boustrophedon_rows_Forall (Q : R -> Prop) :
  (forall d py xs px,
      (d = 1 \/ d = -1)%Z -> Q py ->
      row_x_positions params d = Ok xs -> In px xs ->
      P (PathPoint_xyo px py (if (d =? 1)%Z then 0 else PI))) ->
  forall ys d acc l,
    (d = 1 \/ d = -1)%Z -> Forall Q ys -> Forall P acc ->
    boustrophedon_rows params ys d acc = Ok l -> Forall P l.
Proof.
  intros HP ys. induction ys as [|py ys IH]; intros d acc l Hd HQ Hacc; simpl.
  - now intros [= <-].
  - fold (row_x_positions params d).
    destruct (row_x_positions params d) as [xs| |] eqn:Exs; simpl;
      try discriminate.
    inversion HQ as [|? ? Hpy HQ']; subst.
    apply IH; [lia | assumption |].
    rewrite boustrophedon_row_emit. apply Forall_app. split; [assumption|].
    apply Forall_flat_map_intro. intros px Hpx.
    destruct (_is_point_free px py params); constructor; [|constructor].
    now apply (HP d py xs px).
Qed.

(** A property of every in-bounds candidate holds of every point of the
    spiral output; the angle of a candidate lies in [[0, 2 PI)] when the
    resolution is not negative. *)
Lemma spiral_loop_Forall (max_radius : R) :
  (forall px py angle,
      (0 <= resolution params -> 0 <= angle < 2 * PI) ->
      _is_within_bounds px py params = true ->
      P (PathPoint_xyo px py (angle + PI / 2))) ->
  forall fuel radius angle acc l,
    (0 <= resolution params -> 0 <= angle < 2 * PI) ->
    Forall P acc ->
    spiral_loop fuel params max_radius radius angle acc = Ok l -> Forall P l.
Proof.
  intros HP fuel. induction fuel as [|fuel IH]; intros radius angle acc l Hang Hacc;
    simpl; [discriminate|].
  destruct (Rlt_dec radius max_radius); [|now intros [= <-]].
  set (px := wall_width params / 2 + radius * cos angle).
  set (py := wall_height params / 2 + radius * sin angle).
  assert (Hacc' : Forall P
            (if _is_within_bounds px py params && _is_point_free px py params
             then acc ++ [PathPoint_xyo px py (angle + PI / 2)] else acc)).
  { destruct (_is_within_bounds px py params) eqn:Eb; simpl; [|assumption].
    destruct (_is_point_free px py params); [|assumption].
    apply Forall_app. split; [assumption|]. constructor; [|constructor].
    now apply HP. }
  destruct (Rge_dec _ _) as [Hwrap|Hno]; apply IH; try assumption.
  - intros _. pose proof PI_RGT_0. lra.
  - intros Hres. specialize (Hang Hres).
    assert (0 < Rmax radius (1 / 100)).
    { pose proof (Rmax_r radius (1 / 100)). lra. }
    assert (0 <= resolution params / Rmax radius (1 / 100)).
    { unfold Rdiv. apply Rmult_le_pos; [assumption|].
      left. now apply Rinv_0_lt_compat. }
    lra.
Qed.

(** A property of every point carrying one of the two diagonal orientations
    holds of every point of the zigzag output. *)
Lemma zigzag_passes_Forall (spacing : R) :
  (forall px py o,
      o = diagonal_angle \/ o = - diagonal_angle ->
      P (PathPoint_xyo px py o)) ->
  forall passes acc l,
    Forall P acc ->
    zigzag_passes params spacing passes acc = Ok l -> Forall P l.
Proof.
  intros HP passes. induction passes as [|i passes IH]; intros acc l Hacc; simpl.
  - now intros [= <-].
  - destruct (zigzag_pass_geometry params spacing i)
      as [[[sx sy] [ex ey]] o] eqn:Eg.
    destruct (truediv _ _) as [q| |]; simpl; try discriminate.
    apply IH. rewrite zigzag_pass_points_emit.
    apply Forall_app. split; [assumption|].
    apply Forall_flat_map_intro. intros j _. simpl.
    destruct (_is_point_free _ _ params); constructor; [|constructor].
    apply HP. unfold zigzag_pass_geometry in Eg.
    destruct (Nat.even i); inversion Eg; auto.
Qed.

End PlannerInvariants.

(** ** Defaults of planner points (C10) *)

Lemma PathPoint_xyo_defaults px py o : planner_defaults (PathPoint_xyo px py o).
Proof. repeat split. Qed.

(** ** Bounds of planner points (C1, C9) *)

Lemma _is_within_bounds_true px py params :
  _is_within_bounds px py params = true <->
  robot_width params / 2 <= px <= wall_width params - robot_width params / 2
  /\ robot_width params / 2 <= py <= wall_height params - robot_width params / 2.
Proof.
  unfold _is_within_bounds. rewrite !andb_true_iff, !Rleb_true. tauto.
Qed.

Lemma _is_point_free_no_obstacles px py params :
  obstacles params = [] -> _is_point_free px py params = true.
Proof. unfold _is_point_free. now intros ->. Qed.

(** Spiral candidates are tested with [_is_within_bounds] before emission. *)
Lemma spiral_within_bounds fuel params l :
  _plan_spiral fuel params = Ok l -> Forall (within_bounds params) l.
Proof.
  unfold _plan_spiral.
  apply (spiral_loop_Forall (within_bounds params) params).
  - intros px py angle _ Hb. now apply _is_within_bounds_true in Hb.
  - intros _. pose proof PI_RGT_0. lra.
  - constructor.
Qed.

Lemma sin_diagonal_angle_pos : 0 < sin diagonal_angle.
Proof.
  unfold diagonal_angle. apply sin_gt_0; pose proof PI_RGT_0; lra.
Qed.

Lemma zigzag_spacing_nonzero params :
  effective_width params <> 0 -> zigzag_spacing params <> 0.
Proof.
  intros H. unfold zigzag_spacing, Rdiv.
  pose proof sin_diagonal_angle_pos.
  apply Rmult_integral_contrapositive_currified; [assumption|].
  apply Rinv_neq_0_compat. lra.
Qed.

(** With a non-zero resolution no pass raises, and the passes only append. *)
Lemma zigzag_passes_total params spacing passes acc :
  resolution params <> 0 ->
  exists rest, zigzag_passes params spacing passes acc = Ok (acc ++ rest).
Proof.
  intros Hres. revert acc. induction passes as [|i passes IH]; intros acc; simpl.
  - exists []. now rewrite app_nil_r.
  - destruct (zigzag_pass_geometry params spacing i)
      as [[[sx sy] [ex ey]] o] eqn:Eg.
    rewrite truediv_ok by assumption. simpl.
    rewrite zigzag_pass_points_emit.
    match goal with
    | |- context [zigzag_passes params spacing passes ?acc'] =>
        destruct (IH acc') as [rest ->]
    end.
    rewrite <- app_assoc. eauto.
Qed.

Lemma range_pos (n : Z) : (1 <= n)%Z -> exists tl, range n = 0%nat :: tl.
Proof.
  intros H. unfold range. destruct (Z.to_nat n) as [|k] eqn:E; [lia|].
  simpl. eauto.
Qed.

(** Pass 0 of the zigzag starts at [x = 0]: its first sample is emitted at
    [(0, robot_width / 2)] whenever that position is free. *)
Lemma zigzag_emits_unclipped_start params :
  effective_width params <> 0 -> resolution params <> 0 ->
  0 <= wall_width params / zigzag_spacing params ->
  _is_point_free 0 (robot_width params / 2) params = true ->
  exists rest,
    _plan_zigzag params
    = Ok (PathPoint_xyo 0 (robot_width params / 2) diagonal_angle :: rest).
Proof.
  intros Heff Hres Hq Hfree. unfold _plan_zigzag.
  rewrite truediv_ok by now apply zigzag_spacing_nonzero. simpl.
  destruct (range_pos (int_of_float
              (wall_width params / zigzag_spacing params) + 1)) as [tl ->].
  { apply int_of_float_nonneg in Hq. lia. }
  simpl. rewrite truediv_ok by assumption. simpl.
  rewrite zigzag_pass_points_emit. simpl.
  match goal with
  | |- context [range (Z.max 2 ?n)] =>
      destruct (range_pos (Z.max 2 n)) as [tl' ->]; [lia|]
  end.
  simpl.
  match goal with
  | |- context [_is_point_free ?a ?b params] =>
      replace a with 0 by (unfold Rdiv; ring);
      replace b with (robot_width params / 2) by (unfold Rdiv; ring)
  end.
  rewrite Hfree. simpl.
  match goal with
  | |- context [zigzag_passes params ?s tl ?acc] =>
      destruct (zigzag_passes_total params s tl acc Hres) as [rest ->]
  end.
  simpl. eauto.
Qed.

Lemma div_sin_diagonal_nonneg (a b : R) :
  0 <= a -> 0 < b -> 0 <= a / (b / sin diagonal_angle).
Proof.
  intros Ha Hb. pose proof sin_diagonal_angle_pos as Hs.
  assert (0 < b / sin diagonal_angle).
  { unfold Rdiv. apply Rmult_lt_0_compat; [assumption|].
    now apply Rinv_0_lt_compat. }
  unfold Rdiv at 1. apply Rmult_le_pos; [assumption|].
  left. now apply Rinv_0_lt_compat.
Qed.

(** C1, at a failing input: on the 5 x 5 wall the zigzag planner emits the
    point [(0, 0.05)], whose x coordinate is below [robot_width / 2 = 0.05];
    the point is outside the wall shrunk by half the robot width. *)
Theorem C1_zigzag_leaves_bounds :
  exists rest,
    _plan_zigzag wall_5x5 = Ok (PathPoint_xyo 0 (1 / 10 / 2) (PI / 4) :: rest)
    /\ ~ within_bounds wall_5x5 (PathPoint_xyo 0 (1 / 10 / 2) (PI / 4))
    /\ _is_within_bounds 0 (1 / 10 / 2) wall_5x5 = false.
Proof.
  destruct (zigzag_emits_unclipped_start wall_5x5) as [rest Hrest].
  - unfold effective_width; simpl; lra.
  - simpl; lra.
  - unfold zigzag_spacing, effective_width; simpl.
    apply div_sin_diagonal_nonneg; lra.
  - now apply _is_point_free_no_obstacles.
  - exists rest. split; [exact Hrest|]. split.
    + unfold within_bounds; simpl. lra.
    + destruct (_is_within_bounds 0 (1 / 10 / 2) wall_5x5) eqn:E; [|reflexivity].
      apply _is_within_bounds_true in E. simpl in E. lra.
Qed.

(** On the too-small wall the boustrophedon planner has no row. *)
Lemma boustrophedon_wall_too_small : _plan_boustrophedon wall_too_small = Ok [].
Proof.
  unfold _plan_boustrophedon. rewrite np_arange_empty; [reflexivity| |];
    unfold effective_width; simpl; lra.
Qed.

(** On the too-small wall the spiral loop is not entered. *)
Lemma spiral_wall_too_small fuel : _plan_spiral (S fuel) wall_too_small = Ok [].
Proof.
  unfold _plan_spiral, spiral_max_radius. simpl.
  destruct (Rlt_dec _ _) as [H|H]; [|reflexivity].
  exfalso. unfold Rmin in H. destruct (Rle_dec _ _); lra.
Qed.

(** C9, at a failing input: on the 0.05 x 0.05 wall with robot width 0.1 the
    boustrophedon and spiral planners return the empty sequence, but the
    zigzag planner returns a sequence that starts with the point
    [(0, 0.05)]; none of them raises. *)
Theorem C9_zigzag_not_empty_on_small_wall :
  _plan_boustrophedon wall_too_small = Ok []
  /\ (forall fuel, _plan_spiral (S fuel) wall_too_small = Ok [])
  /\ exists rest,
       _plan_zigzag wall_too_small
       = Ok (PathPoint_xyo 0 (1 / 10 / 2) (PI / 4) :: rest).
Proof.
  split; [exact boustrophedon_wall_too_small|].
  split; [exact spiral_wall_too_small|].
  apply (zigzag_emits_unclipped_start wall_too_small).
  - unfold effective_width; simpl; lra.
  - simpl; lra.
  - unfold zigzag_spacing, effective_width; simpl.
    apply div_sin_diagonal_nonneg; lra.
  - now apply _is_point_free_no_obstacles.
Qed.

(** C10: every point returned by a planner, whichever the algorithm name,
    has [z = 0], the tool active, motion type ["linear"] and feed rate 100. *)
Theorem C10_planner_points_keep_defaults :
  forall fuel algorithm params l,
    _execute_algorithm fuel algorithm params = Ok l ->
    Forall planner_defaults l.
Proof.
  intros fuel algorithm params l. unfold _execute_algorithm.
  destruct (String.eqb algorithm "boustrophedon").
  { unfold _plan_boustrophedon.
    destruct (np_arange _ _ (effective_width params)) as [ys| |]; simpl;
      try discriminate.
    apply (boustrophedon_rows_Forall planner_defaults params (fun _ => True)).
    - intros. apply PathPoint_xyo_defaults.
    - now left.
    - apply Forall_forall. trivial.
    - constructor. }
  destruct (String.eqb algorithm "spiral").
  { apply (spiral_loop_Forall planner_defaults params).
    - intros. apply PathPoint_xyo_defaults.
    - intros _. pose proof PI_RGT_0. lra.
    - constructor. }
  destruct (String.eqb algorithm "zigzag"); [|discriminate].
  unfold _plan_zigzag. destruct (truediv _ _) as [q| |]; simpl; try discriminate.
  apply zigzag_passes_Forall; [|constructor].
  intros. apply PathPoint_xyo_defaults.
Qed.

(** ** The spiral loop, step by step *)

Lemma spiral_loop_exit fuel params m radius angle acc :
  ~ radius < m -> spiral_loop (S fuel) params m radius angle acc = Ok acc.
Proof. intros H. simpl. destruct (Rlt_dec radius m); [contradiction|reflexivity]. Qed.

Lemma spiral_loop_next_turn fuel params m radius angle acc :
  radius < m -> angle + spiral_angle_step params radius >= 2 * PI ->
  spiral_loop (S fuel) params m radius angle acc
  = spiral_loop fuel params m (radius + effective_width params) 0
      (spiral_visit params radius angle acc).
Proof.
  intros Hr Ha. simpl. destruct (Rlt_dec radius m); [|contradiction].
  fold (spiral_angle_step params radius).
  destruct (Rge_dec _ _); [reflexivity|contradiction].
Qed.

Lemma spiral_loop_same_turn fuel params m radius angle acc :
  radius < m -> angle + spiral_angle_step params radius < 2 * PI ->
  spiral_loop (S fuel) params m radius angle acc
  = spiral_loop fuel params m radius (angle + spiral_angle_step params radius)
      (spiral_visit params radius angle acc).
Proof.
  intros Hr Ha. simpl. destruct (Rlt_dec radius m); [|contradiction].
  fold (spiral_angle_step params radius).
  destruct (Rge_dec _ _) as [Hge|]; [lra|reflexivity].
Qed.

Lemma spiral_visit_emits params radius angle acc :
  _is_within_bounds (wall_width params / 2 + radius * cos angle)
    (wall_height params / 2 + radius * sin angle) params = true ->
  obstacles params = [] ->
  spiral_visit params radius angle acc
  = acc ++ [PathPoint_xyo (wall_width params / 2 + radius * cos angle)
              (wall_height params / 2 + radius * sin angle) (angle + PI / 2)].
Proof.
  intros Hb Ho. unfold spiral_visit. simpl.
  rewrite Hb, _is_point_free_no_obstacles by assumption. reflexivity.
Qed.




Lemma spiral_one_point :
  _plan_spiral 2 (wall_03 (4 / 10))
  = Ok [PathPoint_xyo (3 / 10 / 2 + 1 / 10 / 2 * cos 0)
          (3 / 10 / 2 + 1 / 10 / 2 * sin 0) (0 + PI / 2)].
Proof.
  assert (Hm : spiral_max_radius (wall_03 (4 / 10)) = 1 / 10).
  { unfold spiral_max_radius, Rmin. simpl.
    destruct (Rle_dec (3 / 10) (3 / 10)); lra. }
  unfold _plan_spiral. rewrite Hm.
  rewrite spiral_loop_next_turn.
  - rewrite spiral_loop_exit by (unfold effective_width; simpl; lra).
    rewrite spiral_visit_emits; [reflexivity| |reflexivity].
    apply _is_within_bounds_true. simpl. rewrite cos_0, sin_0. lra.
  - simpl. lra.
  - unfold spiral_angle_step. simpl.
    rewrite (Rmax_left (1 / 10 / 2) (1 / 100)) by lra.
    pose proof PI_4. lra.
Qed.

Lemma C10_witness :
  _execute_algorithm 2 "spiral" (wall_03 (4 / 10))
  = Ok [PathPoint_xyo (3 / 10 / 2 + 1 / 10 / 2 * cos 0)
          (3 / 10 / 2 + 1 / 10 / 2 * sin 0) (0 + PI / 2)]
  /\ Forall planner_defaults
       [PathPoint_xyo (3 / 10 / 2 + 1 / 10 / 2 * cos 0)
          (3 / 10 / 2 + 1 / 10 / 2 * sin 0) (0 + PI / 2)].
Proof.
  split; [exact spiral_one_point|].
  apply (C10_planner_points_keep_defaults 2 "spiral" (wall_03 (4 / 10))).
  exact spiral_one_point.
Defined.

(** ** The spiral loop in exact arithmetic

    Without rounding the loop ends: every step adds at least
    [spiral_min_step] to the angle, and every turn adds the effective width
    to the radius. *)


Section SpiralTermination.

Variable params : PlanningParameters.
Variable m : R.
Hypothesis Hres : 0 < resolution params.




End SpiralTermination.



(** ** The spiral loop on binary64 numbers (C4) *)

Lemma digits2_pos_size (p : positive) : digits2_pos p = Pos.size p.
Proof. induction p as [p IH|p IH|]; simpl; now rewrite ?IH. Qed.

Lemma digits2_pos_le (m n : positive) :
  (Z.pos m < 2 ^ Z.pos n)%Z -> (Z.pos (digits2_pos m) <= Z.pos n)%Z.
Proof.
  intros H. rewrite digits2_pos_size.
  destruct (Z_le_gt_dec (Z.pos (Pos.size m)) (Z.pos n)) as [Hle|Hgt];
    [exact Hle|exfalso].
  assert (H1 : (2 ^ (Z.pos n + 1) <= 2 ^ Z.pos (Pos.size m))%Z)
    by (apply Z.pow_le_mono_r; lia).
  rewrite Z.pow_add_r in H1 by lia.
  assert (H2 : (Z.pos (2 ^ Pos.size m) <= Z.pos (m~0))%Z)
    by exact (Pos.size_le m).
  rewrite Pos2Z.inj_pow in H2. change (Z.pos m~0) with (2 * Z.pos m)%Z in H2.
  lia.
Qed.

Lemma digits2_pos_gt (m n : positive) :
  (2 ^ Z.pos n <= Z.pos m)%Z -> (Z.pos n < Z.pos (digits2_pos m))%Z.
Proof.
  intros H. rewrite digits2_pos_size.
  destruct (Z_lt_le_dec (Z.pos n) (Z.pos (Pos.size m))) as [Hlt|Hge];
    [exact Hlt|exfalso].
  assert (H1 : (2 ^ Z.pos (Pos.size m) <= 2 ^ Z.pos n)%Z)
    by (apply Z.pow_le_mono_r; lia).
  assert (H2 : (Z.pos m < Z.pos (2 ^ Pos.size m))%Z) by exact (Pos.size_gt m).
  rewrite Pos2Z.inj_pow in H2. lia.
Qed.

Lemma fexp_subnormal (d : Z) :
  (d <= 53)%Z -> fexp prec emax (d + -1074) = (-1074)%Z.
Proof. intros H. unfold fexp, emin, prec, emax. apply Z.max_r. lia. Qed.

(** A mantissa that already has its canonical exponent is not rounded. *)
Lemma binary_round_aux_canonical (sx : bool) (m : positive) (e : Z) :
  fexp prec emax (Z.pos (digits2_pos m) + e) = e ->
  (e <= emax - prec)%Z ->
  binary_round_aux prec emax sx (Z.pos m) e loc_Exact = S754_finite sx m e.
Proof.
  intros Hc He. unfold binary_round_aux, shr_fexp. cbn [Zdigits2].
  rewrite Hc, Z.sub_diag.
  cbn [shr shr_record_of_loc shr_m loc_of_shr_record round_nearest_even
       Zdigits2].
  rewrite Hc, Z.sub_diag. cbn [shr shr_record_of_loc shr_m].
  apply Z.leb_le in He. now rewrite He.
Qed.

(** Below [2 ^ 53] units of [2 ^ -1074] every integer is a binary64 number. *)
Lemma binary_round_subnormal (sx : bool) (m : positive) :
  (Z.pos m < 2 ^ 53)%Z ->
  binary_round prec emax sx m (-1074) = S754_finite sx m (-1074).
Proof.
  intros Hm. pose proof (digits2_pos_le m 53 Hm) as Hd.
  unfold binary_round, shl_align. rewrite (fexp_subnormal _ Hd).
  replace (-1074 - -1074)%Z with 0%Z by lia.
  apply binary_round_aux_canonical;
    [now apply fexp_subnormal | unfold emax, prec; lia].
Qed.

(** An even number of units with a 53-bit half is a binary64 number of
    exponent -1073. *)
Lemma binary_round_even (sx : bool) (m : positive) :
  (2 ^ 52 <= Z.pos m < 2 ^ 53)%Z ->
  binary_round prec emax sx m~0 (-1074) = S754_finite sx m (-1073).
Proof.
  intros [Hlo Hhi].
  pose proof (digits2_pos_le m 53 Hhi) as Hd1.
  pose proof (digits2_pos_gt m 52 Hlo) as Hd2.
  assert (Hd : digits2_pos m = 53%positive) by lia.
  unfold binary_round, shl_align. cbn [digits2_pos]. rewrite Hd. cbn.
  unfold binary_round_aux, shr_fexp. cbn [Zdigits2 digits2_pos].
  rewrite Hd. cbn. rewrite Hd. reflexivity.
Qed.

Lemma add_two_units_low (m : positive) :
  (Z.pos m + 2 < 2 ^ 53)%Z ->
  SF64add (S754_finite false m (-1074)) two_units
  = S754_finite false (m + 2) (-1074).
Proof.
  intros H.
  change (SF64add (S754_finite false m (-1074)) two_units)
    with (binary_round prec emax false (m + 2) (-1074)).
  apply binary_round_subnormal. lia.
Qed.

Lemma add_two_units_high (m : positive) :
  (2 ^ 52 <= Z.pos m)%Z -> (Z.pos m + 1 < 2 ^ 53)%Z ->
  SF64add (S754_finite false m (-1073)) two_units
  = S754_finite false (m + 1) (-1073).
Proof.
  intros Hlo Hhi.
  change (SF64add (S754_finite false m (-1073)) two_units)
    with (binary_round prec emax false (m~0 + 2) (-1074)).
  replace (m~0 + 2)%positive with ((m + 1)~0)%positive by lia.
  apply binary_round_even. lia.
Qed.

(** Adding the step keeps the angle among the numbers of [below_turn]: the
    sum is exact up to [2 ^ -1020], and there the step is half the distance
    to the next binary64 number and is rounded away. *)
Lemma below_turn_step (a : spec_float) :
  below_turn a -> below_turn (SF64add a two_units).
Proof.
  intros [-> | [(m & -> & Hm) | [(m & -> & Hlo & Hhi) | ->]]].
  - right. left. exists 2%positive. split; [reflexivity|lia].
  - destruct (Z_lt_le_dec (Z.pos m + 2) (2 ^ 53)) as [Hs|Hs].
    + right. left. exists (m + 2)%positive.
      split; [now apply add_two_units_low|lia].
    + right. right. left. exists 4503599627370496%positive.
      assert (Hc : m = 9007199254740990%positive
                   \/ m = 9007199254740991%positive) by lia.
      split; [|lia]. destruct Hc as [-> | ->]; vm_compute; reflexivity.
  - destruct (Z_lt_le_dec (Z.pos m + 1) (2 ^ 53)) as [Hs|Hs].
    + right. right. left. exists (m + 1)%positive.
      split; [now apply add_two_units_high|lia].
    + right. right. right.
      assert (Hc : m = 9007199254740991%positive) by lia.
      subst m. vm_compute. reflexivity.
  - right. right. right. vm_compute. reflexivity.
Qed.

(** Such an angle is below [2 * math.pi]. *)
Lemma below_turn_not_full (a : spec_float) :
  below_turn a -> SFleb (Prim2SF (2 * Binary64.pi)%float) a = false.
Proof.
  intros [-> | [(m & -> & Hm) | [(m & -> & Hlo & Hhi) | ->]]]; reflexivity.
Qed.

(** At radius [0.5] and resolution [5e-324] the loop never leaves its first
    turn. *)
Lemma spiral_loop_smallest_resolution (cos sin : float -> float) (fuel : nat) :
  forall angle acc,
    below_turn (Prim2SF angle) ->
    Binary64.spiral_loop cos sin fuel Binary64.smallest_resolution
      2%float 0.5%float angle acc = OutOfFuel.
Proof.
  induction fuel as [|fuel IH]; intros angle acc Hinv; [reflexivity|].
  cbn [Binary64.spiral_loop].
  change (0.5 <? 2)%float with true. cbv iota.
  change (Binary64.truediv _ _) with (@Ok float 0x1p-1073%float).
  cbn [bind].
  assert (Hnext : below_turn (Prim2SF (angle + 0x1p-1073)%float)).
  { rewrite add_spec. now apply below_turn_step. }
  rewrite leb_spec, (below_turn_not_full _ Hnext).
  now apply IH.
Qed.

(** On an ordinary request the loop on binary64 numbers ends: on the
    0.3 x 0.3 wall at resolution 0.1 it visits the angles 0, 2, 4 and 6 of
    the first turn, at radius 0.05 ([0x1.999999999999ap-5]), and stops when
    the radius has grown to 0.15. *)
Example spiral_binary64_wall_03 (cos sin : float -> float) :
  let visit :=
    spiral_visit_binary64 cos sin Binary64.wall_03 0x1.999999999999ap-5 in
  Binary64._plan_spiral cos sin 5 Binary64.wall_03
  = Ok (visit 6%float (visit 4%float (visit 2%float (visit 0%float [])))).
Proof. reflexivity. Qed.

(** C4, at a failing input: on a request the API accepts (robot width 1,
    overlap 20 %, resolution 5e-324, a 5 x 5 wall without obstacles) the
    [while] loop of the spiral planner, on binary64 numbers, is still
    running after any number of iterations, whatever [math.cos] and
    [math.sin] return: the angle never reaches [2 * math.pi], so the radius
    never grows and no list is returned. *)
Theorem C4_spiral_never_returns :
  forall (cos sin : float -> float) (fuel : nat),
    Binary64._plan_spiral cos sin fuel Binary64.smallest_resolution
    = OutOfFuel.
Proof.
  intros cos sin fuel. unfold Binary64._plan_spiral.
  change (Binary64.spiral_max_radius Binary64.smallest_resolution)
    with 2%float.
  change (Binary64.robot_width Binary64.smallest_resolution / 2)%float
    with 0.5%float.
  apply spiral_loop_smallest_resolution. now left.
Qed.

(** ** Loops over consecutive points *)

(** The pairs [(l[i-1], l[i])] for [i] in [range(1, len(l))] are the
    consecutive pairs of [l]. *)
Lemma indexed_pairs {A : Type} (d : A) (l : list A) :
  map (fun i => (nth (i - 1) l d, nth i l d)) (range_from 1 (List.length l))
  = consecutive_pairs l.
Proof.
  unfold range_from. destruct l as [|a tl]; [reflexivity|].
  simpl List.length. replace (S (List.length tl) - 1)%nat with (List.length tl) by lia.
  revert a. induction tl as [|b tl IH]; intros a; [reflexivity|].
  simpl List.length. rewrite <- cons_seq, <- seq_shift, map_cons, map_map.
  change (consecutive_pairs (a :: b :: tl))
    with ((a, b) :: consecutive_pairs (b :: tl)).
  f_equal. rewrite <- IH.
  apply map_ext_in. intros i Hi. apply in_seq in Hi.
  destruct i as [|i]; [lia|]. simpl. now rewrite Nat.sub_0_r.
Qed.

Lemma Rsum_nonneg (l : list R) : Forall (fun r => 0 <= r) l -> 0 <= Rsum l.
Proof. induction 1; simpl; lra. Qed.

(** ** Path lengths (C5) *)

Lemma metrics_loop_pairs (l : list PathPoint) :
  metrics_loop l = fold_left accumulate_segment (consecutive_pairs l) (0, 0).
Proof.
  unfold metrics_loop. rewrite <- (indexed_pairs origin).
  rewrite <- fold_left_map_arg. reflexivity.
Qed.

Lemma fold_accumulate_segment pairs total cutting :
  fold_left accumulate_segment pairs (total, cutting)
  = (total + Rsum (map (fun pq => distance_3d (fst pq) (snd pq)) pairs),
     cutting + Rsum (map (fun pq => distance_3d (fst pq) (snd pq))
                       (filter (fun pq => tool_active (snd pq)) pairs))).
Proof.
  revert total cutting. induction pairs as [|pq pairs IH]; intros total cutting.
  - simpl. f_equal; ring.
  - cbn [fold_left]. unfold accumulate_segment at 2. cbn [fst snd].
    cbn [filter map]. destruct (tool_active (snd pq)); rewrite IH; simpl;
      f_equal; ring.
Qed.

Lemma metrics_loop_sums (l : list PathPoint) :
  metrics_loop l = (sum_of_segments l, sum_of_active_segments l).
Proof.
  rewrite metrics_loop_pairs, fold_accumulate_segment.
  unfold sum_of_segments, sum_of_active_segments. f_equal; ring.
Qed.

Lemma sum_of_active_segments_nonneg (l : list PathPoint) :
  0 <= sum_of_active_segments l.
Proof.
  apply Rsum_nonneg, Forall_forall. intros r Hr.
  apply in_map_iff in Hr as (pq & <- & _). apply sqrt_pos.
Qed.

Lemma AVG_FEED_RATE_pos : Rgtb AVG_FEED_RATE 0 = true.
Proof. apply Rltb_true. unfold AVG_FEED_RATE. lra. Qed.

(** C5: the metrics calculator's [total_length] is the sum of the 3D
    distances of the consecutive pairs of the sequence; its [cutting_length]
    (the second accumulator of its loop, from which the estimated duration is
    derived) is the sum of the distances of the pairs whose destination point
    is active. *)
Theorem C5_lengths_are_segment_sums :
  forall path_points params,
    total_length (_calculate_path_metrics path_points params)
    = sum_of_segments path_points
    /\ snd (metrics_loop path_points) = sum_of_active_segments path_points
    /\ estimated_duration (_calculate_path_metrics path_points params)
       = sum_of_active_segments path_points / AVG_FEED_RATE.
Proof.
  intros l params. rewrite metrics_loop_sums. cbn [snd].
  destruct l as [|p l].
  - cbn. unfold sum_of_segments, sum_of_active_segments. cbn.
    repeat split; try reflexivity. unfold Rdiv. ring.
  - unfold _calculate_path_metrics. rewrite metrics_loop_sums. cbn [fst snd].
    cbn [total_length estimated_duration]. rewrite AVG_FEED_RATE_pos.
    repeat split; reflexivity.
Qed.

(** ** Coverage percentage (C3) *)

(** C3: for every point sequence, every wall and every obstacle list
    (whatever the sign of the effective area), with a robot width that is not
    negative, the coverage percentage lies between 0 and 100. *)
Theorem C3_coverage_percentage_clamped :
  forall path_points params,
    0 <= robot_width params ->
    0 <= coverage_percentage (_calculate_path_metrics path_points params) <= 100.
Proof.
  intros l params Hw. destruct l as [|p l]; [cbn; lra|].
  unfold _calculate_path_metrics. rewrite metrics_loop_sums.
  cbn [fst snd coverage_percentage].
  set (effective_area := wall_width params * wall_height params
                         - obstacle_area params).
  destruct (Rgtb effective_area 0) eqn:E; [|lra].
  apply Rltb_true in E.
  pose proof (sum_of_active_segments_nonneg (p :: l)) as Hc.
  assert (0 <= sum_of_active_segments (p :: l) * robot_width params
               / effective_area * 100).
  { apply Rmult_le_pos; [|lra]. unfold Rdiv. apply Rmult_le_pos.
    - now apply Rmult_le_pos.
    - left. now apply Rinv_0_lt_compat. }
  unfold Rmin. destruct (Rle_dec _ _); lra.
Qed.

Lemma C3_witness :
  0 <= robot_width wall_covered
  /\ 0 <= coverage_percentage
            (_calculate_path_metrics
               [PathPoint_xyo 0 0 0; PathPoint_xyo 1 0 0] wall_covered) <= 100.
Proof.
  split; [simpl; lra|].
  apply (C3_coverage_percentage_clamped
           [PathPoint_xyo 0 0 0; PathPoint_xyo 1 0 0] wall_covered).
  simpl; lra.
Defined.

(** ** Rapid-move insertion (C7) *)

Lemma _calculate_distance_2d_eq (p q : PathPoint) :
  _calculate_distance_2d (x p) (y p) (x q) (y q) = distance_2d p q.
Proof.
  unfold _calculate_distance_2d, _calculate_distance, distance_2d.
  f_equal. ring.
Qed.

Lemma connecting_step_emit (l acc : list PathPoint) (i : nat) :
  connecting_step l acc i
  = acc ++ with_rapid_marker (nth (i - 1) l origin, nth i l origin).
Proof.
  unfold connecting_step, with_rapid_marker. cbn [fst snd].
  rewrite _calculate_distance_2d_eq.
  destruct (Rgtb _ _); [now rewrite <- app_assoc | reflexivity].
Qed.

Lemma flat_map_map_arg {A B C : Type} (f : B -> list C) (g : A -> B)
    (l : list A) :
  flat_map (fun a => f (g a)) l = flat_map f (map g l).
Proof. induction l; simpl; congruence. Qed.

Lemma insert_rapid_moves_after_pairs (a : PathPoint) (rest : list PathPoint) :
  insert_rapid_moves_after a rest
  = flat_map with_rapid_marker (consecutive_pairs (a :: rest)).
Proof.
  revert a. induction rest as [|b rest IH]; intros a; [reflexivity|].
  change (consecutive_pairs (a :: b :: rest))
    with ((a, b) :: consecutive_pairs (b :: rest)).
  cbn [insert_rapid_moves_after flat_map]. now rewrite IH.
Qed.

Lemma add_connecting_moves_eq (path_points : list PathPoint) :
  _add_connecting_moves path_points = insert_rapid_moves path_points.
Proof.
  unfold _add_connecting_moves.
  destruct path_points as [|a [|b tl]]; [reflexivity | reflexivity |].
  replace (List.length (a :: b :: tl) <? 2)%nat with false
    by (symmetry; apply Nat.ltb_ge; simpl; lia).
  rewrite (fold_left_emit _
             (fun i => with_rapid_marker
                         (nth (i - 1) (a :: b :: tl) origin,
                          nth i (a :: b :: tl) origin)))
    by (intros; apply connecting_step_emit).
  rewrite (flat_map_map_arg with_rapid_marker
             (fun i => (nth (i - 1) (a :: b :: tl) origin,
                        nth i (a :: b :: tl) origin))).
  rewrite indexed_pairs. unfold insert_rapid_moves.
  now rewrite insert_rapid_moves_after_pairs.
Qed.


(** ** First and last point of the optimized path (C6) *)

Lemma insert_rapid_moves_after_last (a lst : PathPoint) (mid : list PathPoint) :
  exists mid',
    insert_rapid_moves_after a (mid ++ [lst]) = mid' ++ [lst].
Proof.
  revert a. induction mid as [|b mid IH]; intros a.
  - cbn [app insert_rapid_moves_after]. unfold with_rapid_marker. cbn [snd].
    rewrite app_nil_r. eauto.
  - cbn [app insert_rapid_moves_after]. destruct (IH b) as [mid' ->].
    exists (with_rapid_marker (a, b) ++ mid'). now rewrite app_assoc.
Qed.

Lemma prune_step_emit (l acc : list PathPoint) (i : nat) :
  prune_step l acc i
  = acc ++ (if negb (_is_collinear (nth (i - 1) l origin) (nth i l origin)
                       (nth (i + 1) l origin))
            then [nth i l origin] else []).
Proof.
  unfold prune_step. destruct (negb _); [reflexivity|now rewrite app_nil_r].
Qed.

(** C6: on an input of at least two points, the optimizer's output starts
    with the first input point and ends with the last input point. *)
Theorem C6_optimizer_keeps_endpoints :
  forall path_points params,
    (2 <= List.length path_points)%nat ->
    exists middle,
      _optimize_path path_points params
      = hd origin path_points :: middle ++ [last path_points origin].
Proof.
  intros l params Hlen. unfold _optimize_path.
  replace (List.length l <? 2)%nat with false
    by (symmetry; apply Nat.ltb_ge; lia).
  replace (1 <? List.length l)%nat with true
    by (symmetry; apply Nat.ltb_lt; lia).
  rewrite (fold_left_emit _ _ (prune_step_emit l)).
  rewrite add_connecting_moves_eq.
  destruct l as [|a l]; [simpl in Hlen; lia|].
  cbn [nth hd app insert_rapid_moves].
  match goal with
  | |- context [insert_rapid_moves_after a (?mid ++ [?lst])] =>
      destruct (insert_rapid_moves_after_last a lst mid) as [mid' ->]
  end.
  eauto.
Qed.

Lemma C6_witness :
  (2 <= List.length [PathPoint_xyo 0 0 0; PathPoint_xyo 1 0 0; PathPoint_xyo 1 1 0])%nat
  /\ exists middle,
       _optimize_path
         [PathPoint_xyo 0 0 0; PathPoint_xyo 1 0 0; PathPoint_xyo 1 1 0] wall_5x5
       = PathPoint_xyo 0 0 0 :: middle ++ [PathPoint_xyo 1 1 0].
Proof.
  split; [simpl; lia|].
  apply (C6_optimizer_keeps_endpoints
           [PathPoint_xyo 0 0 0; PathPoint_xyo 1 0 0; PathPoint_xyo 1 1 0]
           wall_5x5).
  simpl; lia.
Defined.

(** ** Orientations and angle normalization (C8) *)

Lemma normalize_down_sound (fuel : nat) :
  forall angle r,
    normalize_down fuel angle = Ok r ->
    r <= PI /\ (angle <= PI -> r = angle) /\ (PI < angle -> - PI < r).
Proof.
  pose proof PI_RGT_0 as Hpi.
  induction fuel as [|fuel IH]; intros angle r; [discriminate|]. simpl.
  destruct (Rgt_dec angle PI) as [Hgt|Hle].
  - intros H. destruct (IH _ _ H) as (H1 & H2 & H3).
    split; [assumption|]. split; [lra|]. intros _.
    destruct (Rle_dec (angle - 2 * PI) PI) as [Hle|Hnle].
    + rewrite (H2 Hle). lra.
    + apply H3. lra.
  - intros [= <-]. repeat split; lra.
Qed.

Lemma normalize_up_sound (fuel : nat) :
  forall angle r,
    normalize_up fuel angle = Ok r ->
    - PI <= r /\ (- PI <= angle -> r = angle) /\ (angle < - PI -> r < PI).
Proof.
  pose proof PI_RGT_0 as Hpi.
  induction fuel as [|fuel IH]; intros angle r; [discriminate|]. simpl.
  destruct (Rlt_dec angle (- PI)) as [Hlt|Hge].
  - intros H. destruct (IH _ _ H) as (H1 & H2 & H3).
    split; [assumption|]. split; [lra|]. intros _.
    destruct (Rle_dec (- PI) (angle + 2 * PI)) as [Hle|Hnle].
    + rewrite (H2 Hle). lra.
    + apply H3. lra.
  - intros [= <-]. repeat split; lra.
Qed.




Lemma spiral_max_radius_wall_03 res : spiral_max_radius (wall_03 res) = 1 / 10.
Proof.
  unfold spiral_max_radius, Rmin. simpl.
  destruct (Rle_dec (3 / 10) (3 / 10)); lra.
Qed.






(** ** Rejection of a 100 % overlap (C2) *)

Lemma overlap_100_not_ok : TrajectoryPlanRequest.overlap_percentage_ok 100 = false.
Proof.
  unfold TrajectoryPlanRequest.overlap_percentage_ok.
  apply andb_false_iff. right. apply Rleb_false. lra.
Qed.

Lemma validate_overlap_100 body :
  TrajectoryPlanRequest.overlap_percentage body = 100 ->
  exists fields,
    TrajectoryPlanRequest.validate body = Raise (ValidationError fields)
    /\ In "overlap_percentage"%string fields.
Proof.
  intros Ho. unfold TrajectoryPlanRequest.validate.
  assert (Hin : In "overlap_percentage"%string
                  (TrajectoryPlanRequest.failing_fields body)).
  { unfold TrajectoryPlanRequest.failing_fields.
    rewrite Ho, overlap_100_not_ok.
    apply in_or_app. right. apply in_or_app. left. now left. }
  destruct (TrajectoryPlanRequest.failing_fields body) as [|f fs];
    [contradiction|eauto].
Qed.

(** C2: a planning request whose overlap percentage is 100 is rejected when
    the request is built, with a validation error that names
    [overlap_percentage]; the planning service is not called, whatever the
    wall, the algorithm and the number of loop iterations allowed. *)
Theorem C2_overlap_100_is_rejected_before_planning :
  forall fuel wall body,
    TrajectoryPlanRequest.overlap_percentage body = 100 ->
    exists fields,
      TrajectoryPlanRequest.validate body = Raise (ValidationError fields)
      /\ route_plan_trajectory fuel wall body = Raise (ValidationError fields)
      /\ In "overlap_percentage"%string fields.
Proof.
  intros fuel wall body Ho.
  destruct (validate_overlap_100 body Ho) as (fields & Hv & Hin).
  exists fields. unfold route_plan_trajectory. rewrite Hv. auto.
Qed.

Lemma C2_witness :
  TrajectoryPlanRequest.overlap_percentage
    (TrajectoryPlanRequest.mk 1 SPIRAL (1 / 10) 100 (1 / 100)) = 100
  /\ exists fields,
       TrajectoryPlanRequest.validate
         (TrajectoryPlanRequest.mk 1 SPIRAL (1 / 10) 100 (1 / 100))
       = Raise (ValidationError fields)
       /\ route_plan_trajectory 0 (Wall.mk 1 5 5 [])
            (TrajectoryPlanRequest.mk 1 SPIRAL (1 / 10) 100 (1 / 100))
          = Raise (ValidationError fields)
       /\ In "overlap_percentage"%string fields.
Proof.
  split; [reflexivity|].
  apply (C2_overlap_100_is_rejected_before_planning 0 (Wall.mk 1 5 5 [])
           (TrajectoryPlanRequest.mk 1 SPIRAL (1 / 10) 100 (1 / 100))).
  reflexivity.
Defined.

(** The planners themselves do not test the overlap: called with 100 %, the
    boustrophedon and zigzag planners raise from a division by the zero
    spacing, and the spiral loop, once entered, never leaves its first
    turn radius. *)
Lemma effective_width_overlap_100 params :
  overlap_percentage params = 100 -> effective_width params = 0.
Proof. intros H. unfold effective_width. rewrite H. field. Qed.

Lemma boustrophedon_overlap_100 params :
  overlap_percentage params = 100 ->
  _plan_boustrophedon params = Raise ZeroDivisionError.
Proof.
  intros H. unfold _plan_boustrophedon, np_arange.
  rewrite effective_width_overlap_100, truediv_zero by assumption.
  reflexivity.
Qed.

Lemma zigzag_overlap_100 params :
  overlap_percentage params = 100 ->
  _plan_zigzag params = Raise ZeroDivisionError.
Proof.
  intros H. unfold _plan_zigzag, zigzag_spacing.
  rewrite effective_width_overlap_100 by assumption.
  replace (0 / sin diagonal_angle) with 0 by (unfold Rdiv; ring).
  now rewrite truediv_zero.
Qed.

Lemma spiral_loop_overlap_100 params m radius :
  overlap_percentage params = 100 -> radius < m ->
  forall fuel angle acc,
    spiral_loop fuel params m radius angle acc = OutOfFuel.
Proof.
  intros Ho Hr fuel. induction fuel as [|fuel IH]; intros angle acc;
    [reflexivity|].
  destruct (Rge_dec (angle + spiral_angle_step params radius) (2 * PI)).
  - rewrite spiral_loop_next_turn by assumption.
    rewrite effective_width_overlap_100 by assumption.
    replace (radius + 0) with radius by ring. apply IH.
  - rewrite spiral_loop_same_turn by lra. apply IH.
Qed.

(** ** The model on small inputs *)

Lemma ceilZ_IZR (n : Z) : ceilZ (IZR n) = n.
Proof.
  unfold ceilZ. rewrite <- opp_IZR.
  rewrite <- (Int_part_spec (IZR (- n)) (- n)); [lia|]. lra.
Qed.


(** [np.arange] when the quotient is a whole number. *)
Lemma np_arange_whole (start stop step : R) (n : nat) (l : list R) :
  step <> 0 -> (stop - start) / step = INR n ->
  map (fun i => start + INR i * step) (seq 0 n) = l ->
  np_arange start stop step = Ok l.
Proof.
  intros Hs Hq <-. unfold np_arange. rewrite truediv_ok by assumption.
  simpl. rewrite Hq, INR_IZR_INZ, ceilZ_IZR. unfold range.
  now rewrite Nat2Z.id.
Qed.

Lemma boustrophedon_rows_cons params py rest d acc xs :
  row_x_positions params d = Ok xs ->
  boustrophedon_rows params (py :: rest) d acc
  = boustrophedon_rows params rest (d * -1)
      (boustrophedon_row params d py xs acc).
Proof. intros H. simpl. fold (row_x_positions params d). now rewrite H. Qed.

(** Two rows of two samples, the second one from right to left. *)
Example boustrophedon_wall_3x3 :
  _plan_boustrophedon wall_3x3
  = Ok [PathPoint_xyo (1 / 2) (1 / 2) 0; PathPoint_xyo (3 / 2) (1 / 2) 0;
        PathPoint_xyo (5 / 2) (3 / 2) PI; PathPoint_xyo (3 / 2) (3 / 2) PI].
Proof.
  unfold _plan_boustrophedon.
  rewrite (np_arange_whole _ _ _ 2 [1 / 2; 3 / 2]);
    [| unfold effective_width; simpl; lra
     | unfold effective_width; simpl; field
     | unfold effective_width; R_list_eq].
  cbn [bind].
  rewrite (boustrophedon_rows_cons _ _ _ _ _ [1 / 2; 3 / 2]).
  2:{ apply (np_arange_whole _ _ _ 2); [simpl; lra | simpl; field | R_list_eq]. }
  rewrite (boustrophedon_rows_cons _ _ _ _ _ [5 / 2; 3 / 2]).
  2:{ apply (np_arange_whole _ _ _ 2); [simpl; lra | simpl; field | R_list_eq]. }
  reflexivity.
Qed.


(** One active segment of length 5 on the 3 x 3 wall: 5 of the 9 square
    units are covered, and the traversal takes 50 minutes. *)
Example metrics_3_4_5 :
  _calculate_path_metrics [PathPoint_xyo 0 0 0; PathPoint_xyo 3 4 0] wall_3x3
  = mkMetrics 5 (5 * 1 / (3 * 3 - 0) * 100) (5 / AVG_FEED_RATE).
Proof.
  assert (Hd : distance_3d (PathPoint_xyo 0 0 0) (PathPoint_xyo 3 4 0) = 5).
  { unfold distance_3d. simpl.
    replace ((3 - 0) * ((3 - 0) * 1) + (4 - 0) * ((4 - 0) * 1)
             + (default_z - default_z) * ((default_z - default_z) * 1))
      with (5 * 5) by (unfold default_z; ring).
    apply sqrt_square. lra. }
  unfold _calculate_path_metrics. rewrite metrics_loop_sums, AVG_FEED_RATE_pos.
  unfold sum_of_segments, sum_of_active_segments. cbn [fst snd].
  cbn [consecutive_pairs filter map tool_active PathPoint_xyo
       default_tool_active fst snd Rsum fold_right].
  rewrite Hd. replace (5 + 0) with 5 by ring.
  unfold obstacle_area. cbn [obstacles wall_3x3 filter map fold_left
                             wall_width wall_height robot_width].
  replace (Rgtb (3 * 3 - 0) 0) with true by (symmetry; apply Rltb_true; lra).
  f_equal. unfold Rmin. destruct (Rle_dec _ _); lra.
Qed.

(** Three half turns are brought back to one. *)
Example normalize_angle_3_PI : normalize_angle 2 (3 * PI) = Ok PI.
Proof.
  pose proof PI_RGT_0. unfold normalize_angle. simpl.
  destruct (Rgt_dec (3 * PI) PI); [|lra].
  destruct (Rgt_dec (3 * PI - 2 * PI) PI); [lra|]. simpl.
  destruct (Rlt_dec (3 * PI - 2 * PI) (- PI)); [lra|].
  f_equal. ring.
Qed.

(** * Further properties of the planners *)

(** ** Stronger loop invariants *)

Section PlannerInvariantsFree.

Variable P : PathPoint -> Prop.
Variable params : PlanningParameters.

(** As [boustrophedon_rows_Forall], for the samples that pass the free-space
    test. *)
Lemma boustrophedon_rows_Forall_free (Q : R -> Prop) :
  (forall d py xs px,
      (d = 1 \/ d = -1)%Z -> Q py ->
      row_x_positions params d = Ok xs -> In px xs ->
      _is_point_free px py params = true ->
      P (PathPoint_xyo px py (if (d =? 1)%Z then 0 else PI))) ->
  forall ys d acc l,
    (d = 1 \/ d = -1)%Z -> Forall Q ys -> Forall P acc ->
    boustrophedon_rows params ys d acc = Ok l -> Forall P l.
Proof.
  intros HP ys. induction ys as [|py ys IH]; intros d acc l Hd HQ Hacc; simpl.
  - now intros [= <-].
  - fold (row_x_positions params d).
    destruct (row_x_positions params d) as [xs| |] eqn:Exs; simpl;
      try discriminate.
    inversion HQ as [|? ? Hpy HQ']; subst.
    apply IH; [lia | assumption |].
    rewrite boustrophedon_row_emit. apply Forall_app. split; [assumption|].
    apply Forall_flat_map_intro. intros px Hpx.
    destruct (_is_point_free px py params) eqn:Efree; constructor;
      [|constructor].
    now apply (HP d py xs px).
Qed.

(** An invariant [Inv] of the spiral state that holds of every visited
    [(radius, angle)] gives a property of every emitted point. *)
Lemma spiral_loop_Forall_state (max_radius : R) (Inv : R -> R -> Prop) :
  (forall radius angle,
      Inv radius angle -> radius < max_radius ->
      Inv (radius + effective_width params) 0) ->
  (forall radius angle,
      Inv radius angle -> radius < max_radius ->
      Inv radius (angle + spiral_angle_step params radius)) ->
  (forall radius angle,
      Inv radius angle -> radius < max_radius ->
      _is_within_bounds (wall_width params / 2 + radius * cos angle)
        (wall_height params / 2 + radius * sin angle) params = true ->
      _is_point_free (wall_width params / 2 + radius * cos angle)
        (wall_height params / 2 + radius * sin angle) params = true ->
      P (PathPoint_xyo (wall_width params / 2 + radius * cos angle)
           (wall_height params / 2 + radius * sin angle) (angle + PI / 2))) ->
  forall fuel radius angle acc l,
    Inv radius angle -> Forall P acc ->
    spiral_loop fuel params max_radius radius angle acc = Ok l -> Forall P l.
Proof.
  intros Hturn Hstep HP fuel.
  induction fuel as [|fuel IH]; intros radius angle acc l Hinv Hacc;
    [discriminate|].
  destruct (Rlt_dec radius max_radius) as [Hr|Hr].
  - assert (Hacc' : Forall P (spiral_visit params radius angle acc)).
    { unfold spiral_visit. simpl.
      destruct (_is_within_bounds _ _ params) eqn:Eb; simpl; [|assumption].
      destruct (_is_point_free _ _ params) eqn:Ef; [|assumption].
      apply Forall_app. split; [assumption|]. constructor; [|constructor].
      now apply HP. }
    destruct (Rge_dec (angle + spiral_angle_step params radius) (2 * PI)).
    + rewrite spiral_loop_next_turn by assumption. apply IH; eauto.
    + rewrite spiral_loop_same_turn by lra. apply IH; eauto.
  - rewrite spiral_loop_exit by assumption. now intros [= <-].
Qed.

(** A property of every free sample of every pass holds of every point of
    the zigzag output. *)
Lemma zigzag_passes_Forall_free (spacing : R) :
  (forall i sx sy ex ey o j t,
      zigzag_pass_geometry params spacing i = ((sx, sy), (ex, ey), o) ->
      0 <= t <= 1 ->
      _is_point_free (sx + t * (ex - sx)) (sy + t * (ey - sy)) params = true ->
      In j (range (Z.max 2 (int_of_float
              (_calculate_distance_2d sx sy ex ey / resolution params)))) ->
      P (PathPoint_xyo (sx + t * (ex - sx)) (sy + t * (ey - sy)) o)) ->
  forall passes acc l,
    Forall P acc ->
    zigzag_passes params spacing passes acc = Ok l -> Forall P l.
Proof.
  intros HP passes. induction passes as [|i passes IH]; intros acc l Hacc; simpl.
  - now intros [= <-].
  - destruct (zigzag_pass_geometry params spacing i)
      as [[[sx sy] [ex ey]] o] eqn:Eg.
    destruct (truediv _ _) as [q| |] eqn:Eq; simpl; try discriminate.
    assert (Hq : q = _calculate_distance_2d sx sy ex ey / resolution params).
    { unfold truediv in Eq. destruct (Req_dec_T _ _); congruence. }
    subst q. apply IH. rewrite zigzag_pass_points_emit.
    apply Forall_app. split; [assumption|].
    apply Forall_flat_map_intro. intros j Hj. simpl.
    destruct (_is_point_free _ _ params) eqn:Ef; constructor; [|constructor].
    eapply HP; eauto.
    apply In_range in Hj.
    set (n := Z.max 2 _) in *.
    assert (Hn : (1 <= Z.max (n - 1) 1)%Z) by lia.
    assert (Hj' : (Z.of_nat j <= Z.max (n - 1) 1)%Z) by lia.
    apply IZR_le in Hn, Hj'. rewrite <- INR_IZR_INZ in Hj'.
    pose proof (pos_INR j). simpl in Hn.
    split.
    + unfold Rdiv. apply Rmult_le_pos; [assumption|].
      left. apply Rinv_0_lt_compat. lra.
    + apply Rmult_le_reg_r with (IZR (Z.max (n - 1) 1)); [lra|].
      unfold Rdiv. rewrite Rmult_assoc, Rinv_l by lra. lra.
Qed.

End PlannerInvariantsFree.

(** ** Obstacle avoidance *)

(** X1: every point returned by a planner, whichever the algorithm name,
    passes the free-space test of the parameters it was planned with. *)
Theorem X1_planner_points_are_free :
  forall fuel algorithm params l,
    _execute_algorithm fuel algorithm params = Ok l ->
    Forall (point_free params) l.
Proof.
  intros fuel algorithm params l. unfold _execute_algorithm.
  destruct (String.eqb algorithm "boustrophedon").
  { unfold _plan_boustrophedon.
    destruct (np_arange _ _ (effective_width params)) as [ys| |]; simpl;
      try discriminate.
    apply (boustrophedon_rows_Forall_free (point_free params) params
             (fun _ => True)).
    - intros d py xs px _ _ _ _ Hfree. exact Hfree.
    - now left.
    - apply Forall_forall. trivial.
    - constructor. }
  destruct (String.eqb algorithm "spiral").
  { apply (spiral_loop_Forall_state (point_free params) params _
             (fun _ _ => True)); auto. }
  destruct (String.eqb algorithm "zigzag"); [|discriminate].
  unfold _plan_zigzag. destruct (truediv _ _) as [q| |]; simpl; try discriminate.
  apply zigzag_passes_Forall_free; [|constructor].
  intros i sx sy ex ey o j t _ _ Hfree _. exact Hfree.
Qed.

Lemma X1_witness :
  _execute_algorithm 2 "spiral" (wall_03 (4 / 10))
  = Ok [PathPoint_xyo (3 / 10 / 2 + 1 / 10 / 2 * cos 0)
          (3 / 10 / 2 + 1 / 10 / 2 * sin 0) (0 + PI / 2)]
  /\ Forall (point_free (wall_03 (4 / 10)))
       [PathPoint_xyo (3 / 10 / 2 + 1 / 10 / 2 * cos 0)
          (3 / 10 / 2 + 1 / 10 / 2 * sin 0) (0 + PI / 2)].
Proof.
  split; [exact spiral_one_point|].
  apply (X1_planner_points_are_free 2 "spiral" (wall_03 (4 / 10))).
  exact spiral_one_point.
Defined.

Lemma Rleb_congr (a b c d : R) :
  (a <= b <-> c <= d) -> Rleb a b = Rleb c d.
Proof.
  intros H. unfold Rleb. destruct (Rle_dec a b), (Rle_dec c d); tauto.
Qed.

(** The test made on one rectangle is the containment test of
    [GeometryUtils], on the rectangle widened and heightened by the robot
    width. *)
Lemma obstacle_blocks_inflated px py params obstacle :
  obstacle_blocks (robot_width params / 2) px py obstacle
  = is_rectangle obstacle
    && point_in_rectangle px py
         (center_x (geometry obstacle)) (center_y (geometry obstacle))
         (width (geometry obstacle) + robot_width params)
         (height (geometry obstacle) + robot_width params).
Proof.
  unfold obstacle_blocks, is_rectangle, point_in_rectangle.
  destruct (String.eqb (obs_type obstacle) "rectangle"); [|reflexivity].
  cbn [andb]. f_equal; f_equal; apply Rleb_congr; lra.
Qed.

Lemma is_point_free_false_iff px py params :
    _is_point_free px py params = false <->
    exists obstacle,
      In obstacle (obstacles params)
      /\ obs_type obstacle = "rectangle"%string
      /\ point_in_rectangle px py
           (center_x (geometry obstacle)) (center_y (geometry obstacle))
           (width (geometry obstacle) + robot_width params)
           (height (geometry obstacle) + robot_width params) = true.
Proof.
  unfold _is_point_free.
  rewrite negb_false_iff, existsb_exists.
  split; intros (obstacle & Hin & H); exists obstacle.
  - rewrite obstacle_blocks_inflated in H.
    apply andb_true_iff in H as [Hr Hp]. apply String.eqb_eq in Hr. auto.
  - destruct H as [Hr Hp]. split; [assumption|].
    rewrite obstacle_blocks_inflated, Hp. unfold is_rectangle.
    rewrite Hr. reflexivity.
Qed.

Lemma filter_idempotent {A : Type} (f : A -> bool) (l : list A) :
  filter f (filter f l) = filter f l.
Proof.
  induction l as [|a l IH]; simpl; [reflexivity|].
  destruct (f a) eqn:E; simpl; [rewrite E|]; congruence.
Qed.

(** X3: obstacles whose type is not ["rectangle"] (circles, polygons) are
    ignored by the planning service: dropping them changes neither the
    free-space test at any position nor the obstacle area subtracted by the
    metrics. *)
Theorem X3_only_rectangles_count :
  forall params,
    (forall px py,
        _is_point_free px py params
        = _is_point_free px py
            (with_obstacles params (filter is_rectangle (obstacles params))))
    /\ obstacle_area params
       = obstacle_area
           (with_obstacles params (filter is_rectangle (obstacles params))).
Proof.
  intros params. split.
  - intros px py. unfold _is_point_free, with_obstacles. simpl. f_equal.
    induction (obstacles params) as [|o l IH]; simpl; [reflexivity|].
    destruct (is_rectangle o) eqn:E; simpl; [now rewrite IH|].
    rewrite <- IH. unfold obstacle_blocks. unfold is_rectangle in E.
    now rewrite E.
  - unfold obstacle_area, with_obstacles. simpl.
    fold is_rectangle. now rewrite filter_idempotent.
Qed.

(** ** Where the spiral points lie *)

(** The spiral loop on binary64 numbers appends a candidate only after both
    tests have accepted it. *)
Lemma spiral_loop_binary64_tested (cos sin : float -> float)
    (params : Binary64.PlanningParameters) (m : float) (fuel : nat) :
  forall radius angle acc l,
    Forall (fun p => Binary64._is_within_bounds (Binary64.x p) (Binary64.y p)
                       params
                     && Binary64._is_point_free (Binary64.x p) (Binary64.y p)
                          params = true) acc ->
    Binary64.spiral_loop cos sin fuel params m radius angle acc = Ok l ->
    Forall (fun p => Binary64._is_within_bounds (Binary64.x p) (Binary64.y p)
                       params
                     && Binary64._is_point_free (Binary64.x p) (Binary64.y p)
                          params = true) l.
Proof.
  induction fuel as [|fuel IH]; intros radius angle acc l Hacc;
    [discriminate|].
  cbn [Binary64.spiral_loop].
  destruct (radius <? m)%float; [|now intros [= <-]].
  destruct (Binary64.truediv _ _) as [angle_step| |]; cbn [bind];
    try discriminate.
  fold (spiral_visit_binary64 cos sin params radius angle acc).
  assert (Hvisit :
            Forall (fun p => Binary64._is_within_bounds (Binary64.x p)
                               (Binary64.y p) params
                             && Binary64._is_point_free (Binary64.x p)
                                  (Binary64.y p) params = true)
              (spiral_visit_binary64 cos sin params radius angle acc)).
  { unfold spiral_visit_binary64.
    destruct (Binary64._is_within_bounds _ _ params
              && Binary64._is_point_free _ _ params) eqn:Etest;
      [|assumption].
    apply Forall_app. split; [assumption|].
    constructor; [exact Etest|constructor]. }
  destruct (2 * Binary64.pi <=? angle + angle_step)%float;
    now apply IH.
Qed.

(** X4: every point of the spiral planner lies in the wall shrunk inwards
    by half the robot width, because the planner appends a candidate only
    after [_is_within_bounds] has accepted it; on binary64 numbers, whatever
    [math.cos] and [math.sin] return, every point it returns has passed
    [_is_within_bounds] and [_is_point_free]. *)
Theorem X4_spiral_points_within_bounds :
  (forall fuel params l,
      _plan_spiral fuel params = Ok l -> Forall (within_bounds params) l)
  /\ (forall cos sin fuel params l,
        Binary64._plan_spiral cos sin fuel params = Ok l ->
        Forall (fun p =>
                  Binary64._is_within_bounds (Binary64.x p) (Binary64.y p)
                    params
                  && Binary64._is_point_free (Binary64.x p) (Binary64.y p)
                       params = true) l).
Proof.
  split.
  - intros fuel params l. apply spiral_within_bounds.
  - intros cos sin fuel params l. unfold Binary64._plan_spiral.
    apply spiral_loop_binary64_tested. constructor.
Qed.

(** X6: the bounds test of the spiral never rejects a candidate: a position
    at a radius that is not negative and below the maximal radius, at any
    angle around the centre of the wall, is within bounds. *)
Theorem X6_spiral_candidates_always_within_bounds :
  forall params radius angle,
    0 <= radius -> radius < spiral_max_radius params ->
    _is_within_bounds (wall_width params / 2 + radius * cos angle)
      (wall_height params / 2 + radius * sin angle) params = true.
Proof.
  intros params radius angle H0 Hr. apply _is_within_bounds_true.
  unfold spiral_max_radius in Hr.
  pose proof (Rmin_l (wall_width params) (wall_height params)).
  pose proof (Rmin_r (wall_width params) (wall_height params)).
  pose proof (COS_bound angle). pose proof (SIN_bound angle).
  nra.
Qed.

Lemma X6_witness :
  (0 <= 1 / 20 /\ 1 / 20 < spiral_max_radius (wall_03 (4 / 10)))
  /\ _is_within_bounds
       (wall_width (wall_03 (4 / 10)) / 2 + 1 / 20 * cos 3)
       (wall_height (wall_03 (4 / 10)) / 2 + 1 / 20 * sin 3)
       (wall_03 (4 / 10)) = true.
Proof.
  assert (H : 0 <= 1 / 20 /\ 1 / 20 < spiral_max_radius (wall_03 (4 / 10))).
  { rewrite spiral_max_radius_wall_03. lra. }
  split; [exact H|].
  apply (X6_spiral_candidates_always_within_bounds (wall_03 (4 / 10))
           (1 / 20) 3); apply H.
Defined.

(** ** The boustrophedon planner in exact arithmetic *)

(** With exact ranges of any length the rows loop returns whenever the
    resolution is not zero. *)
Lemma boustrophedon_rows_total params ys :
  resolution params <> 0 ->
  forall d acc,
    (d = 1 \/ d = -1)%Z ->
    exists rest, boustrophedon_rows params ys d acc = Ok (acc ++ rest).
Proof.
  intros Hres. induction ys as [|py ys IH]; intros d acc Hd.
  - exists []. simpl. now rewrite app_nil_r.
  - assert (Hxs : exists xs, row_x_positions params d = Ok xs).
    { unfold row_x_positions, np_arange. rewrite truediv_ok; simpl; eauto.
      destruct Hd as [-> | ->]; simpl; lra. }
    destruct Hxs as [xs Hxs].
    rewrite (boustrophedon_rows_cons _ _ _ _ _ xs Hxs).
    rewrite boustrophedon_row_emit.
    destruct (IH (d * -1)%Z
                (acc ++ flat_map
                   (fun px =>
                      if _is_point_free px py params
                      then [PathPoint_xyo px py (if (d =? 1)%Z then 0 else PI)]
                      else []) xs)) as [rest ->]; [lia|].
    rewrite <- app_assoc. eauto.
Qed.

Lemma plan_boustrophedon_total params :
  effective_width params <> 0 -> resolution params <> 0 ->
  exists l, _plan_boustrophedon params = Ok l.
Proof.
  intros Heff Hres. unfold _plan_boustrophedon, np_arange.
  rewrite truediv_ok by assumption. simpl.
  destruct (boustrophedon_rows_total params
              (map (fun i => robot_width params / 2
                             + INR i * effective_width params)
                 (range (ceilZ ((wall_height params - robot_width params / 2
                                 - robot_width params / 2)
                                / effective_width params))))
              Hres 1%Z []) as [rest ->]; [now left|].
  eauto.
Qed.

(** ** Accepted requests *)

Lemma validate_ok_inv body req :
  TrajectoryPlanRequest.validate body = Ok req ->
  req = body
  /\ 0 < TrajectoryPlanRequest.robot_width body <= 1
  /\ 0 <= TrajectoryPlanRequest.overlap_percentage body <= 50
  /\ 0 < TrajectoryPlanRequest.resolution body <= 1 / 10.
Proof.
  unfold TrajectoryPlanRequest.validate, TrajectoryPlanRequest.failing_fields.
  destruct (TrajectoryPlanRequest.robot_width_ok _) eqn:Ew;
    [|discriminate].
  destruct (TrajectoryPlanRequest.overlap_percentage_ok _) eqn:Eo;
    [|discriminate].
  destruct (TrajectoryPlanRequest.resolution_ok _) eqn:Er;
    [|discriminate].
  simpl. intros [= <-].
  unfold TrajectoryPlanRequest.robot_width_ok,
    TrajectoryPlanRequest.overlap_percentage_ok,
    TrajectoryPlanRequest.resolution_ok, Rgtb, Rgeb in *.
  apply andb_true_iff in Ew as [Ew1 Ew2], Eo as [Eo1 Eo2], Er as [Er1 Er2].
  apply Rltb_true in Ew1, Er1. apply Rleb_true in Ew2, Eo1, Eo2, Er2.
  repeat split; assumption.
Qed.

(** * Further properties of the optimizer and of the metrics *)

Lemma with_rapid_marker_cases (prev next : PathPoint) :
  (Rgtb (distance_2d prev next) RAPID_THRESHOLD = true
   /\ with_rapid_marker (prev, next)
      = [PathPoint_rapid (x next) (y next); next])
  \/ (Rgtb (distance_2d prev next) RAPID_THRESHOLD = false
      /\ with_rapid_marker (prev, next) = [next]).
Proof.
  unfold with_rapid_marker. cbn [fst snd].
  destruct (Rgtb _ _); [left|right]; split; reflexivity.
Qed.

Lemma insert_rapid_moves_after_In (q : PathPoint) :
  forall prev rest,
    In q (insert_rapid_moves_after prev rest) ->
    In q rest \/ exists p, In p rest /\ q = PathPoint_rapid (x p) (y p).
Proof.
  intros prev rest. revert prev.
  induction rest as [|next rest IH]; intros prev; [contradiction|].
  cbn [insert_rapid_moves_after]. rewrite in_app_iff. intros [H|H].
  - destruct (with_rapid_marker_cases prev next) as [[_ E]|[_ E]];
      rewrite E in H; simpl in H.
    + destruct H as [<-|[<-|[]]].
      * right. exists next. split; [now left|reflexivity].
      * left. now left.
    + destruct H as [<-|[]]. left. now left.
  - destruct (IH _ H) as [Hin|(p & Hin & ->)].
    + left. now right.
    + right. exists p. split; [now right|reflexivity].
Qed.

Lemma insert_rapid_moves_after_keeps (p : PathPoint) :
  forall prev rest, In p rest -> In p (insert_rapid_moves_after prev rest).
Proof.
  intros prev rest. revert prev.
  induction rest as [|next rest IH]; intros prev; [contradiction|].
  cbn [insert_rapid_moves_after]. rewrite in_app_iff. intros [<-|H].
  - left. unfold with_rapid_marker. cbn [snd]. apply in_or_app. right.
    now left.
  - right. now apply IH.
Qed.

Lemma insert_rapid_moves_after_length prev rest :
  (List.length rest <= List.length (insert_rapid_moves_after prev rest)
   <= 2 * List.length rest)%nat.
Proof.
  revert prev. induction rest as [|next rest IH]; intros prev; [simpl; lia|].
  cbn [insert_rapid_moves_after]. rewrite length_app.
  specialize (IH next).
  destruct (with_rapid_marker_cases prev next) as [[_ ->]|[_ ->]];
    simpl List.length; lia.
Qed.

(** The list left by the pruning loop and the append of the last point. *)
Lemma pruned_list (l : list PathPoint) :
  (2 <= List.length l)%nat ->
  fold_left (prune_step l) (range_from 1 (List.length l - 1))
    [nth 0 l origin] ++ [last l origin]
  = hd origin l
    :: flat_map
         (fun i =>
            if negb (_is_collinear (nth (i - 1) l origin) (nth i l origin)
                       (nth (i + 1) l origin))
            then [nth i l origin] else [])
         (range_from 1 (List.length l - 1))
    ++ [last l origin].
Proof.
  intros Hlen. rewrite (fold_left_emit _ _ (prune_step_emit l)).
  destruct l as [|a l]; [simpl in Hlen; lia|]. reflexivity.
Qed.

Lemma _optimize_path_long (l : list PathPoint) params :
  (2 <= List.length l)%nat ->
  _optimize_path l params
  = insert_rapid_moves
      (hd origin l
       :: flat_map
            (fun i =>
               if negb (_is_collinear (nth (i - 1) l origin)
                          (nth i l origin) (nth (i + 1) l origin))
               then [nth i l origin] else [])
            (range_from 1 (List.length l - 1))
       ++ [last l origin]).
Proof.
  intros Hlen. unfold _optimize_path.
  replace (List.length l <? 2)%nat with false
    by (symmetry; apply Nat.ltb_ge; lia).
  replace (1 <? List.length l)%nat with true
    by (symmetry; apply Nat.ltb_lt; lia).
  rewrite add_connecting_moves_eq. f_equal. now apply pruned_list.
Qed.

Lemma last_In {A : Type} (d : A) (l : list A) : l <> [] -> In (last l d) l.
Proof.
  induction l as [|a [|b l] IH]; intros H; [congruence|now left|].
  right. apply IH. discriminate.
Qed.

Lemma kept_interior_In (l : list PathPoint) (q : PathPoint) :
  In q (flat_map
          (fun i =>
             if negb (_is_collinear (nth (i - 1) l origin) (nth i l origin)
                        (nth (i + 1) l origin))
             then [nth i l origin] else [])
          (range_from 1 (List.length l - 1))) ->
  In q l.
Proof.
  rewrite in_flat_map. intros (i & Hi & Hq).
  unfold range_from in Hi. apply in_seq in Hi.
  destruct (negb _); [|contradiction]. destruct Hq as [<-|[]].
  apply nth_In. lia.
Qed.

Lemma optimize_path_In :
  forall path_points params q,
    In q (_optimize_path path_points params) ->
    In q path_points
    \/ exists p, In p path_points /\ q = PathPoint_rapid (x p) (y p).
Proof.
  intros l params q.
  destruct (Nat.lt_ge_cases (List.length l) 2) as [Hshort|Hlen].
  - unfold _optimize_path.
    replace (List.length l <? 2)%nat with true
      by (symmetry; now apply Nat.ltb_lt).
    now left.
  - rewrite _optimize_path_long by assumption.
    assert (Hsub : forall p,
               In p (flat_map
                       (fun i =>
                          if negb (_is_collinear (nth (i - 1) l origin)
                                     (nth i l origin) (nth (i + 1) l origin))
                          then [nth i l origin] else [])
                       (range_from 1 (List.length l - 1))
                     ++ [last l origin]) ->
               In p l).
    { intros p Hp. apply in_app_or in Hp as [Hp|[<-|[]]].
      - now apply kept_interior_In.
      - apply last_In. destruct l; [simpl in Hlen; lia|discriminate]. }
    cbn [insert_rapid_moves]. intros [<-|H].
    + left. destruct l; [simpl in Hlen; lia|now left].
    + apply insert_rapid_moves_after_In in H as [H|(p & H & ->)].
      * left. now apply Hsub.
      * right. exists p. split; [now apply Hsub|reflexivity].
Qed.



(** X13: on an input of at least two points, the output of the optimizer
    has at least two points and fewer than twice as many points as the
    input. *)
Theorem X13_optimizer_output_length :
  forall path_points params,
    (2 <= List.length path_points)%nat ->
    (2 <= List.length (_optimize_path path_points params)
     <= 2 * List.length path_points - 1)%nat.
Proof.
  intros l params Hlen. rewrite _optimize_path_long by assumption.
  cbn [insert_rapid_moves List.length].
  match goal with
  | |- context [insert_rapid_moves_after ?a ?rest] =>
      pose proof (insert_rapid_moves_after_length a rest) as Hins;
      assert (Hrest : (1 <= List.length rest <= List.length l - 1)%nat)
  end.
  { rewrite length_app. cbn [List.length]. split; [lia|].
    assert (Hkept : forall (f : nat -> bool) js,
               (List.length
                  (flat_map (fun i => if f i then [nth i l origin] else [])
                     js)
                <= List.length js)%nat).
    { intros f js. induction js as [|j js IH]; simpl; [lia|].
      rewrite length_app. destruct (f j); simpl; lia. }
    specialize (Hkept
                  (fun i => negb (_is_collinear (nth (i - 1) l origin)
                                    (nth i l origin) (nth (i + 1) l origin)))
                  (range_from 1 (List.length l - 1))).
    unfold range_from in *. rewrite length_seq in Hkept. lia. }
  lia.
Qed.

Lemma X13_witness :
  (2 <= List.length
          [PathPoint_xyo 0 0 0; PathPoint_xyo 1 0 0; PathPoint_xyo 2 0 0;
           PathPoint_xyo 2 1 0])%nat
  /\ (2 <= List.length
             (_optimize_path
                [PathPoint_xyo 0 0 0; PathPoint_xyo 1 0 0;
                 PathPoint_xyo 2 0 0; PathPoint_xyo 2 1 0] wall_3x3)
       <= 2 * List.length
                [PathPoint_xyo 0 0 0; PathPoint_xyo 1 0 0;
                 PathPoint_xyo 2 0 0; PathPoint_xyo 2 1 0] - 1)%nat.
Proof.
  split; [simpl; lia|].
  apply (X13_optimizer_output_length
           [PathPoint_xyo 0 0 0; PathPoint_xyo 1 0 0;
            PathPoint_xyo 2 0 0; PathPoint_xyo 2 1 0] wall_3x3).
  simpl; lia.
Defined.

(** X14: the optimizer keeps every corner: an interior point of the input
    that is not collinear with its two neighbours is a point of the
    output. *)
Theorem X14_optimizer_keeps_corners :
  forall path_points params i,
    (1 <= i)%nat -> (i + 1 < List.length path_points)%nat ->
    _is_collinear (nth (i - 1) path_points origin) (nth i path_points origin)
      (nth (i + 1) path_points origin) = false ->
    In (nth i path_points origin) (_optimize_path path_points params).
Proof.
  intros l params i Hi Hlen Hcol.
  rewrite _optimize_path_long by lia. cbn [insert_rapid_moves]. right.
  apply insert_rapid_moves_after_keeps. apply in_or_app. left.
  apply in_flat_map. exists i. split.
  - unfold range_from. apply in_seq. lia.
  - rewrite Hcol. now left.
Qed.

Lemma corner_not_collinear :
  _is_collinear (PathPoint_xyo 1 0 0) (PathPoint_xyo 2 0 0)
    (PathPoint_xyo 2 1 0) = false.
Proof.
  unfold _is_collinear, COLLINEAR_TOLERANCE. simpl.
  apply Rltb_false.
  replace ((2 - 1) * (1 - 0) - (0 - 0) * (2 - 1)) with 1 by ring.
  rewrite Rabs_R1. lra.
Qed.

Lemma X14_witness :
  ((1 <= 2)%nat
   /\ (2 + 1 < List.length
                 [PathPoint_xyo 0 0 0; PathPoint_xyo 1 0 0;
                  PathPoint_xyo 2 0 0; PathPoint_xyo 2 1 0])%nat
   /\ _is_collinear (PathPoint_xyo 1 0 0) (PathPoint_xyo 2 0 0)
        (PathPoint_xyo 2 1 0) = false)
  /\ In (PathPoint_xyo 2 0 0)
       (_optimize_path
          [PathPoint_xyo 0 0 0; PathPoint_xyo 1 0 0; PathPoint_xyo 2 0 0;
           PathPoint_xyo 2 1 0] wall_3x3).
Proof.
  split.
  - split; [lia|]. split; [simpl; lia|exact corner_not_collinear].
  - apply (X14_optimizer_keeps_corners
             [PathPoint_xyo 0 0 0; PathPoint_xyo 1 0 0; PathPoint_xyo 2 0 0;
              PathPoint_xyo 2 1 0] wall_3x3 2).
    + lia.
    + simpl; lia.
    + exact corner_not_collinear.
Defined.

(** ** Lengths after the insertion of rapid markers *)

Lemma consecutive_pairs_cons2 {A : Type} (a b : A) (l : list A) :
  consecutive_pairs (a :: b :: l) = (a, b) :: consecutive_pairs (b :: l).
Proof. reflexivity. Qed.

Lemma distance_3d_flat (p q : PathPoint) :
  flat p -> flat q -> distance_3d p q = distance_2d p q.
Proof.
  unfold flat, distance_3d, distance_2d. intros -> ->. f_equal. ring.
Qed.

Lemma distance_3d_to_marker (p q : PathPoint) :
  flat p ->
  distance_3d p (PathPoint_rapid (x q) (y q)) = distance_2d p q.
Proof.
  unfold flat, distance_3d, distance_2d. intros Hp. simpl. rewrite Hp.
  f_equal. ring.
Qed.

Lemma distance_3d_from_marker (q : PathPoint) :
  flat q -> distance_3d (PathPoint_rapid (x q) (y q)) q = 0.
Proof.
  unfold flat, distance_3d. intros Hq. simpl. rewrite Hq.
  replace ((x q - x q) * ((x q - x q) * 1) + (y q - y q) * ((y q - y q) * 1)
           + (0 - 0) * ((0 - 0) * 1)) with 0 by ring.
  apply sqrt_0.
Qed.

Lemma sums_after_markers (prev : PathPoint) (rest : list PathPoint) :
  flat prev -> Forall flat rest ->
  Forall (fun p => tool_active p = true) rest ->
  sum_of_segments (prev :: insert_rapid_moves_after prev rest)
  = sum_of_segments (prev :: rest)
  /\ sum_of_active_segments (prev :: insert_rapid_moves_after prev rest)
     = sum_of_short_moves (prev :: rest).
Proof.
  revert prev. induction rest as [|next rest IH]; intros prev Hp Hflat Hact.
  - split; reflexivity.
  - inversion Hflat as [|? ? Hn Hflat']; subst.
    inversion Hact as [|? ? Han Hact']; subst.
    destruct (IH next Hn Hflat' Hact') as [IHt IHc].
    unfold sum_of_segments, sum_of_active_segments, sum_of_short_moves in *.
    cbn [insert_rapid_moves_after].
    rewrite (consecutive_pairs_cons2 prev next rest).
    cbn [filter map Rsum fold_right fst snd]. unfold short_move at 1.
    cbn [fst snd].
    destruct (with_rapid_marker_cases prev next) as [[Hgap ->]|[Hgap ->]];
      rewrite Hgap; cbn [app negb].
    + rewrite !consecutive_pairs_cons2.
      cbn [filter map Rsum fold_right fst snd tool_active PathPoint_rapid].
      rewrite Han. cbn [map Rsum fold_right fst snd].
      fold (Rsum (map (fun pq => distance_3d (fst pq) (snd pq))
                    (consecutive_pairs (next :: insert_rapid_moves_after next rest)))).
      fold (Rsum (map (fun pq => distance_3d (fst pq) (snd pq))
                    (filter (fun pq => tool_active (snd pq))
                       (consecutive_pairs
                          (next :: insert_rapid_moves_after next rest))))).
      rewrite IHt, IHc.
      rewrite distance_3d_to_marker, distance_3d_from_marker by assumption.
      rewrite distance_3d_flat by assumption.
      split; unfold Rsum; ring.
    + rewrite consecutive_pairs_cons2.
      cbn [filter map Rsum fold_right fst snd]. rewrite Han.
      cbn [map Rsum fold_right fst snd].
      fold (Rsum (map (fun pq => distance_3d (fst pq) (snd pq))
                    (consecutive_pairs (next :: insert_rapid_moves_after next rest)))).
      fold (Rsum (map (fun pq => distance_3d (fst pq) (snd pq))
                    (filter (fun pq => tool_active (snd pq))
                       (consecutive_pairs
                          (next :: insert_rapid_moves_after next rest))))).
      rewrite IHt, IHc. rewrite distance_3d_flat by assumption.
      split; unfold Rsum; ring.
Qed.

Lemma total_after_markers (prev : PathPoint) (rest : list PathPoint) :
  flat prev -> Forall flat rest ->
  sum_of_segments (prev :: insert_rapid_moves_after prev rest)
  = sum_of_segments (prev :: rest).
Proof.
  revert prev. induction rest as [|next rest IH]; intros prev Hp Hflat.
  - reflexivity.
  - inversion Hflat as [|? ? Hn Hflat']; subst.
    specialize (IH next Hn Hflat').
    unfold sum_of_segments in *. cbn [insert_rapid_moves_after].
    rewrite (consecutive_pairs_cons2 prev next rest).
    destruct (with_rapid_marker_cases prev next) as [[_ ->]|[_ ->]];
      cbn [app]; rewrite !consecutive_pairs_cons2;
      cbn [map Rsum fold_right fst snd];
      fold (Rsum (map (fun pq => distance_3d (fst pq) (snd pq))
                    (consecutive_pairs
                       (next :: insert_rapid_moves_after next rest))));
      rewrite IH.
    + rewrite distance_3d_to_marker, distance_3d_from_marker by assumption.
      rewrite distance_3d_flat by assumption. unfold Rsum. ring.
    + reflexivity.
Qed.

Lemma total_length_sum (l : list PathPoint) params :
  total_length (_calculate_path_metrics l params) = sum_of_segments l.
Proof.
  destruct l as [|p l]; [reflexivity|].
  unfold _calculate_path_metrics. now rewrite metrics_loop_sums.
Qed.

Lemma estimated_duration_sum (l : list PathPoint) params :
  estimated_duration (_calculate_path_metrics l params)
  = sum_of_active_segments l / AVG_FEED_RATE.
Proof.
  destruct l as [|p l].
  - cbn. unfold sum_of_active_segments. cbn. unfold Rdiv. ring.
  - unfold _calculate_path_metrics. rewrite metrics_loop_sums.
    cbn [snd estimated_duration]. now rewrite AVG_FEED_RATE_pos.
Qed.

(** X15: on a path whose points are all at [z = 0], the insertion of rapid
    markers leaves the total length computed by the metrics calculator
    unchanged. *)
Theorem X15_rapid_markers_keep_total_length :
  forall path_points params,
    Forall flat path_points ->
    total_length
      (_calculate_path_metrics (_add_connecting_moves path_points) params)
    = total_length (_calculate_path_metrics path_points params).
Proof.
  intros l params Hflat. rewrite !total_length_sum, add_connecting_moves_eq.
  destruct l as [|a rest]; [reflexivity|].
  inversion Hflat; subst. cbn [insert_rapid_moves].
  now apply total_after_markers.
Qed.

Lemma X15_witness :
  Forall flat [PathPoint_xyo 0 0 0; PathPoint_xyo 3 4 0]
  /\ total_length
       (_calculate_path_metrics
          (_add_connecting_moves [PathPoint_xyo 0 0 0; PathPoint_xyo 3 4 0])
          wall_3x3)
     = total_length
         (_calculate_path_metrics
            [PathPoint_xyo 0 0 0; PathPoint_xyo 3 4 0] wall_3x3).
Proof.
  assert (H : Forall flat [PathPoint_xyo 0 0 0; PathPoint_xyo 3 4 0])
    by (repeat constructor).
  split; [exact H|].
  apply (X15_rapid_markers_keep_total_length _ wall_3x3 H).
Defined.

(** X18: on a path whose points are all at [z = 0] with the tool active,
    once the rapid markers are inserted the metrics calculator counts as
    cutting only the moves of at most 0.05: the estimated duration is the
    sum of the lengths of those moves divided by the feed rate, so a move
    across a longer gap adds nothing to it. *)
Theorem X18_only_short_moves_are_cutting :
  forall path_points params,
    Forall flat path_points ->
    Forall (fun p => tool_active p = true) path_points ->
    estimated_duration
      (_calculate_path_metrics (_add_connecting_moves path_points) params)
    = sum_of_short_moves path_points / AVG_FEED_RATE.
Proof.
  intros l params Hflat Hact.
  rewrite estimated_duration_sum, add_connecting_moves_eq. f_equal.
  destruct l as [|a rest]; [reflexivity|].
  inversion Hflat; subst. inversion Hact; subst. cbn [insert_rapid_moves].
  now apply sums_after_markers.
Qed.

Lemma X18_witness :
  (Forall flat [PathPoint_xyo 0 0 0; PathPoint_xyo 3 4 0]
   /\ Forall (fun p => tool_active p = true)
        [PathPoint_xyo 0 0 0; PathPoint_xyo 3 4 0])
  /\ estimated_duration
       (_calculate_path_metrics
          (_add_connecting_moves [PathPoint_xyo 0 0 0; PathPoint_xyo 3 4 0])
          wall_3x3)
     = sum_of_short_moves [PathPoint_xyo 0 0 0; PathPoint_xyo 3 4 0]
       / AVG_FEED_RATE.
Proof.
  assert (H : Forall flat [PathPoint_xyo 0 0 0; PathPoint_xyo 3 4 0]
              /\ Forall (fun p => tool_active p = true)
                   [PathPoint_xyo 0 0 0; PathPoint_xyo 3 4 0])
    by (split; repeat constructor).
  split; [exact H|].
  apply (X18_only_short_moves_are_cutting _ wall_3x3 (proj1 H) (proj2 H)).
Defined.

Lemma Rsum_filter_le {A : Type} (f : A -> R) (keep : A -> bool) (l : list A) :
  (forall a, 0 <= f a) ->
  0 <= Rsum (map f (filter keep l)) <= Rsum (map f l).
Proof.
  intros Hf. induction l as [|a l IH]; simpl; [lra|].
  pose proof (Hf a). destruct (keep a); simpl; lra.
Qed.

Lemma estimated_duration_bounds :
  forall path_points params,
    0 <= estimated_duration (_calculate_path_metrics path_points params)
      <= total_length (_calculate_path_metrics path_points params)
         / AVG_FEED_RATE.
Proof.
  intros l params. rewrite estimated_duration_sum, total_length_sum.
  pose proof (Rsum_filter_le (fun pq => distance_3d (fst pq) (snd pq))
                (fun pq => tool_active (snd pq)) (consecutive_pairs l)
                (fun pq => sqrt_pos _)) as H.
  fold (sum_of_active_segments l) in H. fold (sum_of_segments l) in H.
  unfold AVG_FEED_RATE, Rdiv.
  replace (/ (1 * / 10)) with 10 by field. lra.
Qed.

(** X16: for every point sequence, the cutting length never exceeds the
    total length: the estimated duration lies between 0 and the total
    length divided by the feed rate. *)
Theorem X16_estimated_duration_bounded_by_total_length :
  forall path_points params,
    0 <= estimated_duration (_calculate_path_metrics path_points params)
      <= total_length (_calculate_path_metrics path_points params)
         / AVG_FEED_RATE.
Proof. exact estimated_duration_bounds. Qed.

(** * Properties of the geometry utilities *)

(** ** Bounding boxes *)

(** X21: the bounding box of a rectangle is the rectangle: a position is in
    the rectangle, for [point_in_rectangle], exactly when it is in the box
    returned by [rectangle_bounds]. *)
Theorem X21_rectangle_is_its_bounding_box :
  forall px py cx cy w h,
    point_in_rectangle px py cx cy w h = true
    <-> in_box (rectangle_bounds cx cy w h) px py.
Proof.
  intros px py cx cy w h. unfold point_in_rectangle, in_box, rectangle_bounds.
  rewrite !andb_true_iff, !Rleb_true. tauto.
Qed.

(** X22: with a robot width that is not negative, no planner returns a point
    inside a rectangle obstacle: for every point of the output of
    [_execute_algorithm] and every obstacle of type ["rectangle"],
    [point_in_rectangle] is false. *)
Theorem X22_planner_points_outside_rectangles :
  forall fuel algorithm params l,
    0 <= robot_width params ->
    _execute_algorithm fuel algorithm params = Ok l ->
    forall p obstacle,
      In p l -> In obstacle (obstacles params) ->
      obs_type obstacle = "rectangle"%string ->
      point_in_rectangle (x p) (y p)
        (center_x (geometry obstacle)) (center_y (geometry obstacle))
        (width (geometry obstacle)) (height (geometry obstacle)) = false.
Proof.
  intros fuel algorithm params l Hw Hexec p obstacle Hp Ho Ht.
  assert (Hfree : Forall (point_free params) l).
  { revert Hexec. unfold _execute_algorithm.
    destruct (String.eqb algorithm "boustrophedon").
    { unfold _plan_boustrophedon.
      destruct (np_arange _ _ (effective_width params)) as [ys| |]; simpl;
        try discriminate.
      apply (boustrophedon_rows_Forall_free (point_free params) params
               (fun _ => True)); auto.
      apply Forall_forall. trivial. }
    destruct (String.eqb algorithm "spiral").
    { apply (spiral_loop_Forall_state (point_free params) params _
               (fun _ _ => True)); auto. }
    destruct (String.eqb algorithm "zigzag"); [|discriminate].
    unfold _plan_zigzag.
    destruct (truediv _ _) as [q| |]; simpl; try discriminate.
    apply zigzag_passes_Forall_free; [|constructor].
    intros i sx sy ex ey o j t _ _ Hf _. exact Hf. }
  rewrite Forall_forall in Hfree. specialize (Hfree p Hp).
  unfold point_free, _is_point_free in Hfree.
  apply negb_true_iff in Hfree.
  destruct (point_in_rectangle _ _ _ _ _ _) eqn:Hin; [|reflexivity].
  exfalso.
  assert (Hblock : existsb (obstacle_blocks (robot_width params / 2)
                              (x p) (y p)) (obstacles params) = true).
  { apply existsb_exists. exists obstacle. split; [assumption|].
    unfold obstacle_blocks. rewrite Ht.
    cbn [String.eqb Ascii.eqb Bool.eqb andb].
    unfold point_in_rectangle in Hin.
    rewrite !andb_true_iff, !Rleb_true in *. lra. }
  congruence.
Qed.

Lemma spiral_one_point_obstacle :
  _execute_algorithm 2 "spiral" wall_03_obstacle
  = Ok [PathPoint_xyo (3 / 10 / 2 + 1 / 10 / 2 * cos 0)
          (3 / 10 / 2 + 1 / 10 / 2 * sin 0) (0 + PI / 2)].
Proof.
  assert (Hm : spiral_max_radius wall_03_obstacle = 1 / 10).
  { unfold spiral_max_radius, Rmin. simpl.
    destruct (Rle_dec (3 / 10) (3 / 10)); lra. }
  change (_execute_algorithm 2 "spiral" wall_03_obstacle)
    with (_plan_spiral 2 wall_03_obstacle).
  unfold _plan_spiral. rewrite Hm.
  rewrite spiral_loop_next_turn.
  - rewrite spiral_loop_exit by (unfold effective_width; simpl; lra).
    unfold spiral_visit.
    cbn [wall_width wall_height wall_03_obstacle with_obstacles wall_03
         robot_width].
    replace (_is_within_bounds _ _ _) with true.
    2:{ symmetry. apply _is_within_bounds_true. simpl.
        rewrite cos_0, sin_0. lra. }
    destruct (_is_point_free _ _ _) eqn:Efree; [reflexivity|].
    exfalso. apply is_point_free_false_iff in Efree
      as (obstacle & [<-|[]] & _ & Hin).
    unfold point_in_rectangle in Hin. simpl in Hin.
    rewrite !andb_true_iff, !Rleb_true, cos_0 in Hin. lra.
  - simpl. lra.
  - unfold spiral_angle_step. simpl.
    rewrite (Rmax_left (1 / 10 / 2) (1 / 100)) by lra.
    pose proof PI_4. lra.
Qed.

Lemma X22_witness :
  (0 <= robot_width wall_03_obstacle
   /\ _execute_algorithm 2 "spiral" wall_03_obstacle
      = Ok [PathPoint_xyo (3 / 10 / 2 + 1 / 10 / 2 * cos 0)
              (3 / 10 / 2 + 1 / 10 / 2 * sin 0) (0 + PI / 2)]
   /\ In corner_obstacle (obstacles wall_03_obstacle)
   /\ obs_type corner_obstacle = "rectangle"%string)
  /\ point_in_rectangle (3 / 10 / 2 + 1 / 10 / 2 * cos 0)
       (3 / 10 / 2 + 1 / 10 / 2 * sin 0)
       (5 / 100) (5 / 100) (1 / 100) (1 / 100) = false.
Proof.
  split.
  - split; [simpl; lra|]. split; [exact spiral_one_point_obstacle|].
    split; [now left|reflexivity].
  - apply (X22_planner_points_outside_rectangles 2 "spiral" wall_03_obstacle
             _ ltac:(simpl; lra) spiral_one_point_obstacle
             (PathPoint_xyo (3 / 10 / 2 + 1 / 10 / 2 * cos 0)
                (3 / 10 / 2 + 1 / 10 / 2 * sin 0) (0 + PI / 2))
             corner_obstacle).
    + now left.
    + now left.
    + reflexivity.
Defined.

(** ** Normalized angles *)

Lemma normalize_angle_fixed (fuel : nat) (angle : R) :
  - PI <= angle <= PI -> normalize_angle (S fuel) angle = Ok angle.
Proof.
  intros H. unfold normalize_angle. simpl.
  destruct (Rgt_dec angle PI); [lra|]. simpl.
  destruct (Rlt_dec angle (- PI)); [lra|reflexivity].
Qed.

(** X23: whatever the number of loop iterations allowed, an angle returned
    by [normalize_angle] lies in [[- PI, PI]], and normalizing it again
    returns it unchanged: the helper is idempotent, and its fixed points are
    the angles of [[- PI, PI]]. *)
Theorem X23_normalize_angle_idempotent :
  forall fuel angle r,
    normalize_angle fuel angle = Ok r ->
    - PI <= r <= PI
    /\ forall fuel', normalize_angle (S fuel') r = Ok r.
Proof.
  intros fuel angle r. unfold normalize_angle at 1.
  destruct (normalize_down fuel angle) as [a| |] eqn:Ea; cbn [bind];
    try discriminate.
  intros Hr.
  destruct (normalize_down_sound _ _ _ Ea) as (Ha & _ & _).
  destruct (normalize_up_sound _ _ _ Hr) as (Hr1 & Hr2 & Hr3).
  assert (Hrange : - PI <= r <= PI).
  { split; [assumption|].
    destruct (Rle_dec (- PI) a) as [Hle|Hnle].
    - rewrite (Hr2 Hle). assumption.
    - left. apply Hr3. lra. }
  split; [exact Hrange|].
  intros fuel'. now apply normalize_angle_fixed.
Qed.

Lemma X23_witness :
  normalize_angle 2 (3 * PI) = Ok PI
  /\ - PI <= PI <= PI
  /\ forall fuel', normalize_angle (S fuel') PI = Ok PI.
Proof.
  split; [exact normalize_angle_3_PI|].
  apply (X23_normalize_angle_idempotent 2 (3 * PI) PI).
  exact normalize_angle_3_PI.
Defined.

(** ** Distances *)

(** X24: the planar distance used for the rapid threshold is the distance of
    the geometry utilities; it is symmetric, not negative, and zero from a
    position to itself. *)
Theorem X24_planar_distance :
  forall x1 y1 x2 y2,
    _calculate_distance x1 y1 x2 y2 0 0 = calculate_distance x1 y1 x2 y2
    /\ calculate_distance x1 y1 x2 y2 = calculate_distance x2 y2 x1 y1
    /\ 0 <= calculate_distance x1 y1 x2 y2
    /\ calculate_distance x1 y1 x1 y1 = 0.
Proof.
  intros x1 y1 x2 y2. unfold _calculate_distance, calculate_distance.
  split; [f_equal; ring|]. split; [f_equal; ring|].
  split; [apply sqrt_pos|].
  replace ((x1 - x1) ^ 2 + (y1 - y1) ^ 2) with 0 by ring. apply sqrt_0.
Qed.

(** * Properties of the storage of trajectory points and of the statistics *)

Lemma BATCH_SIZE_pos : (0 < TrajectoryStorage.BATCH_SIZE)%nat.
Proof. unfold TrajectoryStorage.BATCH_SIZE. lia. Qed.

Lemma batch_fold_rows (trajectory_id : Z) (l : list PathPoint) st :
  fold_left (TrajectoryStorage.batch_step trajectory_id)
    (TrajectoryStorage.enumerate l) st
  = fold_left chunk_step (stored_rows trajectory_id l) st.
Proof.
  unfold stored_rows. rewrite <- fold_left_map_arg. reflexivity.
Qed.

Lemma chunk_step_full added pending row :
  (TrajectoryStorage.BATCH_SIZE <= List.length (pending ++ [row]))%nat ->
  chunk_step (added, pending) row = (added ++ [pending ++ [row]], []).
Proof.
  intros H. unfold chunk_step. cbn [fst snd].
  now rewrite (proj2 (Nat.leb_le _ _) H).
Qed.

Lemma chunk_step_more added pending row :
  (List.length (pending ++ [row]) < TrajectoryStorage.BATCH_SIZE)%nat ->
  chunk_step (added, pending) row = (added, pending ++ [row]).
Proof.
  intros H. unfold chunk_step. cbn [fst snd].
  now rewrite (proj2 (Nat.leb_gt _ _) H).
Qed.

(** The invariant of the batching loop: nothing is lost or reordered, the
    pending batch is not full, and the batches handed over are full. *)
Lemma chunk_fold (rows : list TrajectoryPoint.t) :
  forall added pending,
    (List.length pending < TrajectoryStorage.BATCH_SIZE)%nat ->
    Forall (fun b => List.length b = TrajectoryStorage.BATCH_SIZE) added ->
    List.concat (fst (fold_left chunk_step rows (added, pending)))
      ++ snd (fold_left chunk_step rows (added, pending))
    = List.concat added ++ pending ++ rows
    /\ (List.length (snd (fold_left chunk_step rows (added, pending)))
        < TrajectoryStorage.BATCH_SIZE)%nat
    /\ Forall (fun b => List.length b = TrajectoryStorage.BATCH_SIZE)
         (fst (fold_left chunk_step rows (added, pending))).
Proof.
  pose proof BATCH_SIZE_pos as HB.
  induction rows as [|row rows IH]; intros added pending Hp Ha.
  - simpl. rewrite app_nil_r. auto.
  - cbn [fold_left].
    assert (Hlen : List.length (pending ++ [row])
                   = S (List.length pending))
      by (rewrite length_app; simpl; lia).
    destruct (Nat.le_gt_cases TrajectoryStorage.BATCH_SIZE
                (List.length (pending ++ [row]))) as [Hfull|Hnot].
    + rewrite chunk_step_full by assumption.
      destruct (IH (added ++ [pending ++ [row]]) []) as (H1 & H2 & H3).
      * simpl. lia.
      * apply Forall_app. split; [assumption|].
        constructor; [lia|constructor].
      * split; [|split; assumption]. rewrite H1, concat_app. simpl.
        rewrite app_nil_r, <- !app_assoc. reflexivity.
    + rewrite chunk_step_more by assumption.
      destruct (IH added (pending ++ [row])) as (H1 & H2 & H3);
        [lia|assumption|].
      split; [|split; assumption]. rewrite H1, <- !app_assoc. reflexivity.
Qed.

Lemma enumerate_fst {A : Type} (l : list A) :
  map fst (TrajectoryStorage.enumerate l) = seq 0 (List.length l).
Proof.
  unfold TrajectoryStorage.enumerate.
  generalize 0%nat. induction l as [|a l IH]; intros n; simpl;
    [reflexivity|]. now rewrite IH.
Qed.

Lemma enumerate_snd {A : Type} (l : list A) :
  map snd (TrajectoryStorage.enumerate l) = l.
Proof.
  unfold TrajectoryStorage.enumerate.
  generalize 0%nat. induction l as [|a l IH]; intros n; simpl;
    [reflexivity|]. now rewrite IH.
Qed.

Lemma add_all_batches_cases (trajectory_id : Z) (l : list PathPoint) :
  exists full pending,
    List.concat full ++ pending = stored_rows trajectory_id l
    /\ (List.length pending < TrajectoryStorage.BATCH_SIZE)%nat
    /\ Forall (fun b => List.length b = TrajectoryStorage.BATCH_SIZE) full
    /\ TrajectoryStorage.add_all_batches trajectory_id l
       = match pending with
         | [] => full
         | _ :: _ => full ++ [pending]
         end.
Proof.
  pose proof BATCH_SIZE_pos as HB.
  unfold TrajectoryStorage.add_all_batches. rewrite batch_fold_rows.
  destruct (chunk_fold (stored_rows trajectory_id l) [] [])
    as (H1 & H2 & H3); [simpl; lia|constructor|].
  exists (fst (fold_left chunk_step (stored_rows trajectory_id l) ([], []))),
    (snd (fold_left chunk_step (stored_rows trajectory_id l) ([], []))).
  auto.
Qed.

(** X25: the batches in which [_create_trajectory_record] hands the points
    to the database lose and reorder nothing: put end to end they are the
    rows of the points in order, numbered 0, 1, 2, ...; no batch is empty or
    longer than the batch size, and every batch but the last has exactly the
    batch size. *)
Theorem X25_batches_keep_every_point :
  forall trajectory_id path_points,
    List.concat (TrajectoryStorage.add_all_batches trajectory_id path_points)
    = stored_rows trajectory_id path_points
    /\ map TrajectoryPoint.sequence_number
         (List.concat (TrajectoryStorage.add_all_batches trajectory_id path_points))
       = seq 0 (List.length path_points)
    /\ Forall (fun b => (1 <= List.length b
                         <= TrajectoryStorage.BATCH_SIZE)%nat)
         (TrajectoryStorage.add_all_batches trajectory_id path_points)
    /\ (forall full lst,
          TrajectoryStorage.add_all_batches trajectory_id path_points
          = full ++ [lst] ->
          Forall (fun b => List.length b = TrajectoryStorage.BATCH_SIZE)
            full).
Proof.
  intros id l. pose proof BATCH_SIZE_pos as HB.
  destruct (add_all_batches_cases id l)
    as (full & pending & Hrows & Hp & Hfull & ->).
  assert (Hconcat : List.concat (match pending with
                            | [] => full
                            | _ :: _ => full ++ [pending]
                            end) = stored_rows id l).
  { rewrite <- Hrows. destruct pending; [now rewrite app_nil_r|].
    rewrite concat_app. simpl. now rewrite app_nil_r. }
  split; [exact Hconcat|]. split; [|split].
  - rewrite Hconcat. unfold stored_rows. rewrite map_map. simpl.
    apply enumerate_fst.
  - assert (Hfull' : Forall (fun b => (1 <= List.length b
                                       <= TrajectoryStorage.BATCH_SIZE)%nat)
                       full).
    { eapply Forall_impl; [|exact Hfull]. simpl. intros b ->. lia. }
    destruct pending as [|r pending]; [assumption|].
    apply Forall_app. split; [assumption|].
    constructor; [simpl in *; lia|constructor].
  - intros full' lst Heq. destruct pending as [|r pending].
    + subst full. now apply Forall_app in Hfull as [Hfull _].
    + apply app_inj_tail in Heq as [<- _]. assumption.
Qed.

(** ** Statistics of a stored trajectory *)

Lemma stats_loop_pairs (rows : list TrajectoryPoint.t) :
  fold_left (TrajectoriesRoutes.stats_step rows)
    (range_from 1 (List.length rows)) (0, 0, 0)
  = fold_left accumulate_rows (consecutive_pairs rows) (0, 0, 0).
Proof.
  rewrite <- (indexed_pairs TrajectoriesRoutes.origin_row).
  rewrite <- fold_left_map_arg. reflexivity.
Qed.

Lemma Rsum_cons (a : R) (l : list R) : Rsum (a :: l) = a + Rsum l.
Proof. reflexivity. Qed.

Lemma fold_accumulate_rows pairs total cutting rapid :
  fold_left accumulate_rows pairs (total, cutting, rapid)
  = (total + Rsum (map (fun pq => row_distance (fst pq) (snd pq)) pairs),
     cutting
     + Rsum (map (fun pq => row_distance (fst pq) (snd pq))
               (filter (fun pq => TrajectoryPoint.tool_active (snd pq)) pairs)),
     rapid
     + Rsum (map (fun pq => row_distance (fst pq) (snd pq))
               (filter (fun pq => negb (TrajectoryPoint.tool_active (snd pq)))
                  pairs))).
Proof.
  revert total cutting rapid.
  induction pairs as [|pq pairs IH]; intros total cutting rapid.
  - simpl. apply f_equal2; [apply f_equal2|]; ring.
  - cbn [fold_left]. unfold accumulate_rows at 2.
    cbn [filter map]. destruct (TrajectoryPoint.tool_active (snd pq));
      rewrite IH; cbn [negb map]; rewrite ?Rsum_cons;
      (apply f_equal2; [apply f_equal2|]); ring.
Qed.

Lemma filter_length_le {A : Type} (f : A -> bool) (l : list A) :
  (List.length (filter f l) <= List.length l)%nat.
Proof. induction l as [|a l IH]; simpl; [lia|]. destruct (f a); simpl; lia. Qed.

Lemma get_trajectory_stats_sums (rows : list TrajectoryPoint.t) :
  TrajectoriesRoutes.get_trajectory_stats rows
  = TrajectoriesRoutes.mkStats
      (List.length rows)
      (List.length (filter TrajectoryPoint.tool_active rows))
      (List.length rows
       - List.length (filter TrajectoryPoint.tool_active rows))
      (0 + Rsum (map (fun pq => row_distance (fst pq) (snd pq))
                   (consecutive_pairs rows)))
      (0 + Rsum (map (fun pq => row_distance (fst pq) (snd pq))
                   (filter (fun pq => TrajectoryPoint.tool_active (snd pq))
                      (consecutive_pairs rows))))
      (0 + Rsum (map (fun pq => row_distance (fst pq) (snd pq))
                   (filter
                      (fun pq => negb (TrajectoryPoint.tool_active (snd pq)))
                      (consecutive_pairs rows)))).
Proof.
  unfold TrajectoriesRoutes.get_trajectory_stats.
  rewrite stats_loop_pairs, fold_accumulate_rows. reflexivity.
Qed.

(** X26: in the statistics of a trajectory, the points split into cutting
    and rapid points, and neither the cutting length nor the rapid length is
    negative or above the total length. *)
Theorem X26_statistics_are_consistent :
  forall points_list,
    TrajectoriesRoutes.total_points
      (TrajectoriesRoutes.get_trajectory_stats points_list)
    = (TrajectoriesRoutes.cutting_points
         (TrajectoriesRoutes.get_trajectory_stats points_list)
       + TrajectoriesRoutes.rapid_points
           (TrajectoriesRoutes.get_trajectory_stats points_list))%nat
    /\ 0 <= TrajectoriesRoutes.cutting_length
              (TrajectoriesRoutes.get_trajectory_stats points_list)
         <= TrajectoriesRoutes.total_length
              (TrajectoriesRoutes.get_trajectory_stats points_list)
    /\ 0 <= TrajectoriesRoutes.rapid_length
              (TrajectoriesRoutes.get_trajectory_stats points_list)
         <= TrajectoriesRoutes.total_length
              (TrajectoriesRoutes.get_trajectory_stats points_list).
Proof.
  intros rows. rewrite get_trajectory_stats_sums. simpl.
  pose proof (filter_length_le TrajectoryPoint.tool_active rows).
  split; [lia|].
  pose proof (Rsum_filter_le
                (fun pq => row_distance (fst pq) (snd pq))
                (fun pq => TrajectoryPoint.tool_active (snd pq))
                (consecutive_pairs rows) (fun pq => sqrt_pos _)).
  pose proof (Rsum_filter_le
                (fun pq => row_distance (fst pq) (snd pq))
                (fun pq => negb (TrajectoryPoint.tool_active (snd pq)))
                (consecutive_pairs rows) (fun pq => sqrt_pos _)).
  lra.
Qed.

Lemma filter_map_comm {A B : Type} (f : A -> B) (keep : B -> bool)
    (l : list A) :
  filter keep (map f l) = map f (filter (fun a => keep (f a)) l).
Proof.
  induction l as [|a l IH]; simpl; [reflexivity|].
  destruct (keep (f a)); simpl; now rewrite IH.
Qed.

Lemma filter_split_length {A : Type} (f : A -> bool) (l : list A) :
  List.length l
  = (List.length (filter f l)
     + List.length (filter (fun a => negb (f a)) l))%nat.
Proof.
  induction l as [|a l IH]; simpl; [reflexivity|].
  destruct (f a); simpl; lia.
Qed.

(** The stored rows are as many as the points, and as many of them are
    tool-active. *)
Lemma stored_rows_counts (trajectory_id : Z) (l : list PathPoint) :
  List.length (stored_rows trajectory_id l) = List.length l
  /\ List.length (filter TrajectoryPoint.tool_active
                    (stored_rows trajectory_id l))
     = List.length (filter tool_active l).
Proof.
  unfold stored_rows. split.
  - unfold TrajectoryStorage.enumerate.
    rewrite length_map, length_combine, length_seq. lia.
  - rewrite filter_map_comm, length_map.
    rewrite <- (enumerate_snd l) at 2.
    rewrite filter_map_comm, length_map. reflexivity.
Qed.

(** X27: storing the points of a trajectory and reading their statistics
    back counts every point once: the statistics report as many points as
    the path has, the tool-active ones as cutting points and the others as
    rapid points. *)
Theorem X27_stored_points_are_counted :
  forall trajectory_id path_points,
    TrajectoriesRoutes.total_points
      (TrajectoriesRoutes.get_trajectory_stats
         (List.concat
            (TrajectoryStorage.add_all_batches trajectory_id path_points)))
    = List.length path_points
    /\ TrajectoriesRoutes.cutting_points
         (TrajectoriesRoutes.get_trajectory_stats
            (List.concat
               (TrajectoryStorage.add_all_batches trajectory_id path_points)))
       = List.length (filter tool_active path_points)
    /\ TrajectoriesRoutes.rapid_points
         (TrajectoriesRoutes.get_trajectory_stats
            (List.concat
               (TrajectoryStorage.add_all_batches trajectory_id path_points)))
       = List.length (filter (fun p => negb (tool_active p)) path_points).
Proof.
  intros id l.
  destruct (add_all_batches_cases id l)
    as (full & pending & Hrows & _ & _ & ->).
  assert (Hconcat : List.concat (match pending with
                                 | [] => full
                                 | _ :: _ => full ++ [pending]
                                 end) = stored_rows id l).
  { rewrite <- Hrows. destruct pending; [now rewrite app_nil_r|].
    rewrite concat_app. simpl. now rewrite app_nil_r. }
  rewrite Hconcat, get_trajectory_stats_sums. simpl.
  destruct (stored_rows_counts id l) as [-> ->].
  pose proof (filter_split_length tool_active l).
  repeat split; lia.
Qed.

(** * Where the spiral starts *)



(** * The planning pipeline, end to end *)

Lemma execute_algorithm_defaults fuel algorithm params l :
  _execute_algorithm fuel algorithm params = Ok l ->
  Forall planner_defaults l.
Proof.
  unfold _execute_algorithm.
  destruct (String.eqb algorithm "boustrophedon").
  { unfold _plan_boustrophedon.
    destruct (np_arange _ _ (effective_width params)) as [ys| |]; simpl;
      try discriminate.
    apply (boustrophedon_rows_Forall planner_defaults params (fun _ => True)).
    - intros. apply PathPoint_xyo_defaults.
    - now left.
    - apply Forall_forall. trivial.
    - constructor. }
  destruct (String.eqb algorithm "spiral").
  { apply (spiral_loop_Forall planner_defaults params).
    - intros. apply PathPoint_xyo_defaults.
    - intros _. pose proof PI_RGT_0. lra.
    - constructor. }
  destruct (String.eqb algorithm "zigzag"); [|discriminate].
  unfold _plan_zigzag. destruct (truediv _ _) as [q| |]; simpl; try discriminate.
  apply zigzag_passes_Forall; [|constructor].
  intros. apply PathPoint_xyo_defaults.
Qed.

Lemma coverage_percentage_bounds (l : list PathPoint) params :
  0 <= robot_width params ->
  0 <= coverage_percentage (_calculate_path_metrics l params) <= 100.
Proof.
  intros Hw. destruct l as [|p l]; [cbn; lra|].
  unfold _calculate_path_metrics. rewrite metrics_loop_sums.
  cbn [fst snd coverage_percentage].
  set (effective_area := wall_width params * wall_height params
                         - obstacle_area params).
  destruct (Rgtb effective_area 0) eqn:E; [|lra].
  apply Rltb_true in E.
  pose proof (sum_of_active_segments_nonneg (p :: l)) as Hc.
  assert (0 <= sum_of_active_segments (p :: l) * robot_width params
               / effective_area * 100).
  { apply Rmult_le_pos; [|lra]. unfold Rdiv. apply Rmult_le_pos.
    - now apply Rmult_le_pos.
    - left. now apply Rinv_0_lt_compat. }
  unfold Rmin. destruct (Rle_dec _ _); lra.
Qed.

(** X28: whatever the planning route returns for a request, on any wall:
    the algorithm name is the one requested, every point of the optimized
    path is at [z = 0] with feed rate 100 and is either a working point
    (tool active, motion type ["linear"]) or a rapid marker (tool inactive,
    motion type ["rapid"]), the coverage percentage lies between 0 and 100,
    and the estimated duration between 0 and the total length divided by
    the feed rate. *)
Theorem X28_planned_result_is_well_formed :
  forall fuel wall body planned,
    route_plan_trajectory fuel wall body = Ok planned ->
    planned_algorithm planned
    = Algorithm_value (TrajectoryPlanRequest.algorithm body)
    /\ Forall (fun q => planner_defaults q \/ rapid_marker q)
         (planned_points planned)
    /\ 0 <= coverage_percentage (planned_metrics planned) <= 100
    /\ 0 <= estimated_duration (planned_metrics planned)
         <= total_length (planned_metrics planned) / AVG_FEED_RATE.
Proof.
  intros fuel wall body planned. unfold route_plan_trajectory.
  destruct (TrajectoryPlanRequest.validate body) as [req| |] eqn:Hv;
    cbn [bind]; try discriminate.
  destruct (validate_ok_inv body req Hv) as (-> & Hw & _ & _).
  unfold plan_trajectory.
  destruct (_execute_algorithm fuel _ _) as [l| |] eqn:Hl; cbn [bind];
    try discriminate.
  intros [= <-]. cbn [planned_algorithm planned_points planned_metrics].
  split; [reflexivity|]. split; [|split].
  - apply execute_algorithm_defaults in Hl.
    rewrite Forall_forall in *. intros q Hq.
    apply optimize_path_In in Hq as [Hq|(p & _ & ->)].
    + left. now apply Hl.
    + right. repeat split.
  - apply coverage_percentage_bounds. simpl. lra.
  - apply estimated_duration_bounds.
Qed.

Lemma X28_witness :
  exists planned,
    route_plan_trajectory 0 (Wall.mk 1 3 3 [])
      (TrajectoryPlanRequest.mk 1 BOUSTROPHEDON (1 / 10) 20 (5 / 100))
    = Ok planned
    /\ planned_algorithm planned = "boustrophedon"%string
    /\ Forall (fun q => planner_defaults q \/ rapid_marker q)
         (planned_points planned)
    /\ 0 <= coverage_percentage (planned_metrics planned) <= 100
    /\ 0 <= estimated_duration (planned_metrics planned)
         <= total_length (planned_metrics planned) / AVG_FEED_RATE.
Proof.
  assert (Hv : TrajectoryPlanRequest.validate
                 (TrajectoryPlanRequest.mk 1 BOUSTROPHEDON (1 / 10) 20
                    (5 / 100))
               = Ok (TrajectoryPlanRequest.mk 1 BOUSTROPHEDON (1 / 10) 20
                       (5 / 100))).
  { unfold TrajectoryPlanRequest.validate,
      TrajectoryPlanRequest.failing_fields,
      TrajectoryPlanRequest.robot_width_ok,
      TrajectoryPlanRequest.overlap_percentage_ok,
      TrajectoryPlanRequest.resolution_ok, Rgtb, Rgeb. simpl.
    replace (Rltb 0 (1 / 10)) with true by (symmetry; apply Rltb_true; lra).
    replace (Rleb (1 / 10) 1) with true by (symmetry; apply Rleb_true; lra).
    replace (Rleb 0 20) with true by (symmetry; apply Rleb_true; lra).
    replace (Rleb 20 50) with true by (symmetry; apply Rleb_true; lra).
    replace (Rltb 0 (5 / 100)) with true by (symmetry; apply Rltb_true; lra).
    replace (Rleb (5 / 100) (1 / 10)) with true
      by (symmetry; apply Rleb_true; lra).
    reflexivity. }
  destruct (plan_boustrophedon_total
              (_prepare_planning_parameters (Wall.mk 1 3 3 [])
                 (TrajectoryPlanRequest.mk 1 BOUSTROPHEDON (1 / 10) 20
                    (5 / 100)))) as [l Hl].
  { unfold effective_width. simpl. lra. }
  { simpl. lra. }
  assert (Hroute :
            route_plan_trajectory 0 (Wall.mk 1 3 3 [])
              (TrajectoryPlanRequest.mk 1 BOUSTROPHEDON (1 / 10) 20 (5 / 100))
            = Ok (mkPlanned "boustrophedon"
                    (_optimize_path l
                       (_prepare_planning_parameters (Wall.mk 1 3 3 [])
                          (TrajectoryPlanRequest.mk 1 BOUSTROPHEDON (1 / 10)
                             20 (5 / 100))))
                    (_calculate_path_metrics
                       (_optimize_path l
                          (_prepare_planning_parameters (Wall.mk 1 3 3 [])
                             (TrajectoryPlanRequest.mk 1 BOUSTROPHEDON
                                (1 / 10) 20 (5 / 100))))
                       (_prepare_planning_parameters (Wall.mk 1 3 3 [])
                          (TrajectoryPlanRequest.mk 1 BOUSTROPHEDON (1 / 10)
                             20 (5 / 100)))))).
  { unfold route_plan_trajectory. rewrite Hv. cbn [bind].
    unfold plan_trajectory.
    change (_execute_algorithm 0
              (Algorithm_value
                 (TrajectoryPlanRequest.algorithm
                    (TrajectoryPlanRequest.mk 1 BOUSTROPHEDON (1 / 10) 20
                       (5 / 100))))
              (_prepare_planning_parameters (Wall.mk 1 3 3 [])
                 (TrajectoryPlanRequest.mk 1 BOUSTROPHEDON (1 / 10) 20
                    (5 / 100))))
      with (_plan_boustrophedon
              (_prepare_planning_parameters (Wall.mk 1 3 3 [])
                 (TrajectoryPlanRequest.mk 1 BOUSTROPHEDON (1 / 10) 20
                    (5 / 100)))).
    rewrite Hl. reflexivity. }
  eexists. split; [exact Hroute|].
  exact (X28_planned_result_is_well_formed _ _ _ _ Hroute).
Defined.
